(** * randombasket-server: the room simulation engine of [server.js]

    A shallow embedding of the [GameRoom] class and of the socket handlers and
    game loop that drive it, followed by the properties of the engine.

    Conventions of the embedding.
    - JavaScript numbers are read as real numbers ([R]): [Math.min], [Math.max],
      [Math.abs], [Math.sqrt], [Math.cos], [Math.sin] and [Math.pow (_, 2)] are
      [Rmin], [Rmax], [Rabs], [sqrt], [cos], [sin] and [_ ^ 2]; rounding, [NaN]
      and infinities are outside the model.
    - [Date.now ()] is an input: every method takes one integer (milliseconds)
      per call it makes to the clock, in the order of the calls.
    - A [Map] is an association list in insertion order ([JSMap]); the objects
      stored in it are mutated by writing the entry back under its key.
    - A method is a function from the room to the room (paired with the
      returned value when there is one). *)

From Stdlib Require Import Bool List String ZArith Reals Lra Lia DecimalString.
Import ListNotations.

Local Open Scope string_scope.
Local Open Scope R_scope.

(** ** [Map] with string keys, in insertion order *)

Module JSMap.
Section Defs.
Context {V : Type}.

Definition t : Type := list (string * V).

Definition empty : t := [].

Fixpoint get (k : string) (m : t) : option V :=
  match m with
  | [] => None
  | (k', v) :: m' => if String.eqb k' k then Some v else get k m'
  end.

Definition has (k : string) (m : t) : bool :=
  match get k m with Some _ => true | None => false end.

(** [set] overwrites the value of a present key where it stands and appends
    an absent one. *)
Fixpoint set (k : string) (v : V) (m : t) : t :=
  match m with
  | [] => [(k, v)]
  | (k', v') :: m' =>
      if String.eqb k' k then (k, v) :: m' else (k', v') :: set k v m'
  end.

Fixpoint delete (k : string) (m : t) : t :=
  match m with
  | [] => []
  | (k', v') :: m' =>
      if String.eqb k' k then m' else (k', v') :: delete k m'
  end.

Definition size (m : t) : nat := List.length m.

Definition keys (m : t) : list string := map fst m.

Definition values (m : t) : list V := map snd m.

(** [forEach] with a callback that mutates the visited value only. *)
Definition forEach (f : V -> V) (m : t) : t :=
  map (fun kv => (fst kv, f (snd kv))) m.
End Defs.
Arguments t : clear implicits.
End JSMap.

(** ** Constants *)

Definition GAME_WIDTH : R := 1024.
Definition GAME_HEIGHT : R := 600.
Definition BASKET_X : R := GAME_WIDTH - 100.
Definition BASKET_Y : R := 150.
Definition CENTER_X : R := GAME_WIDTH / 2.
Definition CENTER_Y : R := GAME_HEIGHT / 2.
Definition PLAYER_SPEED : R := 5.
Definition BALL_SPEED : R := 7.
Definition BALL_RADIUS : R := 10.

(** ** Data model *)

Inductive Team : Type := team1 | team2.

Inductive GameState : Type := waiting | playing | paused | ended.

Definition GameState_eqb (a b : GameState) : bool :=
  match a, b with
  | waiting, waiting | playing, playing | paused, paused | ended, ended => true
  | _, _ => false
  end.

(** The argument [playerData] of [addPlayer]: only [name] is read. *)
Module PlayerData.
Record t : Type := mk { name : string }.
End PlayerData.

Module Player.
Record t : Type := mk {
  id : string;
  name : string;
  team : Team;
  x : R;
  y : R;
  vx : R;
  vy : R;
  hasBall : bool;
  score : Z;
  active : bool
}.

Definition set_x (v : R) (p : t) : t :=
  mk (id p) (name p) (team p) v (y p) (vx p) (vy p) (hasBall p) (score p) (active p).
Definition set_y (v : R) (p : t) : t :=
  mk (id p) (name p) (team p) (x p) v (vx p) (vy p) (hasBall p) (score p) (active p).
Definition set_vx (v : R) (p : t) : t :=
  mk (id p) (name p) (team p) (x p) (y p) v (vy p) (hasBall p) (score p) (active p).
Definition set_vy (v : R) (p : t) : t :=
  mk (id p) (name p) (team p) (x p) (y p) (vx p) v (hasBall p) (score p) (active p).
Definition set_hasBall (v : bool) (p : t) : t :=
  mk (id p) (name p) (team p) (x p) (y p) (vx p) (vy p) v (score p) (active p).
Definition set_score (v : Z) (p : t) : t :=
  mk (id p) (name p) (team p) (x p) (y p) (vx p) (vy p) (hasBall p) v (active p).
End Player.

Module Ball.
(** [owner] is [null] ([None]) or a player id. *)
Record t : Type := mk {
  x : R;
  y : R;
  vx : R;
  vy : R;
  owner : option string;
  inBasket : bool
}.

Definition set_x (v : R) (b : t) : t := mk v (y b) (vx b) (vy b) (owner b) (inBasket b).
Definition set_y (v : R) (b : t) : t := mk (x b) v (vx b) (vy b) (owner b) (inBasket b).
Definition set_vx (v : R) (b : t) : t := mk (x b) (y b) v (vy b) (owner b) (inBasket b).
Definition set_vy (v : R) (b : t) : t := mk (x b) (y b) (vx b) v (owner b) (inBasket b).
Definition set_owner (v : option string) (b : t) : t :=
  mk (x b) (y b) (vx b) (vy b) v (inBasket b).
Definition set_inBasket (v : bool) (b : t) : t :=
  mk (x b) (y b) (vx b) (vy b) (owner b) v.
End Ball.

Module Score.
Record t : Type := mk { team1 : Z; team2 : Z }.
End Score.

Module GameRoom.
Record t : Type := mk {
  id : string;
  players : JSMap.t Player.t;
  ball : Ball.t;
  score : Score.t;
  gameState : GameState;
  lastUpdate : Z;
  gameStartTime : option Z;
  maxPlayers : nat
}.

Definition set_players (v : JSMap.t Player.t) (r : t) : t :=
  mk (id r) v (ball r) (score r) (gameState r) (lastUpdate r) (gameStartTime r) (maxPlayers r).
Definition set_ball (v : Ball.t) (r : t) : t :=
  mk (id r) (players r) v (score r) (gameState r) (lastUpdate r) (gameStartTime r) (maxPlayers r).
Definition set_score (v : Score.t) (r : t) : t :=
  mk (id r) (players r) (ball r) v (gameState r) (lastUpdate r) (gameStartTime r) (maxPlayers r).
Definition set_gameState (v : GameState) (r : t) : t :=
  mk (id r) (players r) (ball r) (score r) v (lastUpdate r) (gameStartTime r) (maxPlayers r).
Definition set_lastUpdate (v : Z) (r : t) : t :=
  mk (id r) (players r) (ball r) (score r) (gameState r) v (gameStartTime r) (maxPlayers r).
Definition set_gameStartTime (v : option Z) (r : t) : t :=
  mk (id r) (players r) (ball r) (score r) (gameState r) (lastUpdate r) v (maxPlayers r).
End GameRoom.

(** ** JavaScript tests on values *)

(** [if (v)] for [v] a string or [null]: [null] and the empty string are
    falsy. *)
Definition truthy (v : option string) : bool :=
  match v with
  | Some s => negb (String.eqb s EmptyString)
  | None => false
  end.

(** [v === s] for [v] a string or [null] and [s] a string. *)
Definition strict_eq (v : option string) (s : string) : bool :=
  match v with
  | Some s' => String.eqb s' s
  | None => false
  end.

(** [a < b] on numbers. *)
Definition js_lt (a b : R) : bool := if Rlt_dec a b then true else false.

(** [a > b] on numbers. *)
Definition js_gt (a b : R) : bool := if Rlt_dec b a then true else false.

(** ** The class [GameRoom] *)

(** [constructor (roomId)]; [now] is the reading of the clock. *)
Definition constructor (roomId : string) (now : Z) : GameRoom.t :=
  GameRoom.mk roomId JSMap.empty
    (Ball.mk CENTER_X CENTER_Y 0 0 None false)
    (Score.mk 0%Z 0%Z) waiting now None 6%nat.

Definition addPlayer (playerId : string) (playerData : PlayerData.t)
    (r : GameRoom.t) : bool * GameRoom.t :=
  if (GameRoom.maxPlayers r <=? JSMap.size (GameRoom.players r))%nat then (false, r)
  else
    let size := JSMap.size (GameRoom.players r) in
    let team := if (size <? 3)%nat then team1 else team2 in
    (true,
     GameRoom.set_players
       (JSMap.set playerId
          (Player.mk playerId (PlayerData.name playerData) team
             (match team with team1 => 100 | team2 => GAME_WIDTH - 100 end)
             (CENTER_Y + INR (size mod 3) * 80 - 80)
             0 0 false 0%Z true)
          (GameRoom.players r))
       r).

Definition removePlayer (playerId : string) (r : GameRoom.t) : bool * GameRoom.t :=
  let r := GameRoom.set_players (JSMap.delete playerId (GameRoom.players r)) r in
  let r :=
    if strict_eq (Ball.owner (GameRoom.ball r)) playerId
    then GameRoom.set_ball (Ball.set_owner None (GameRoom.ball r)) r
    else r in
  ((JSMap.size (GameRoom.players r) =? 0)%nat, r).

Definition updatePlayerPosition (playerId : string) (x y vx vy : R)
    (r : GameRoom.t) : GameRoom.t :=
  match JSMap.get playerId (GameRoom.players r) with
  | Some player =>
      let player := Player.set_x (Rmax 0 (Rmin (GAME_WIDTH - 20) x)) player in
      let player := Player.set_y (Rmax 0 (Rmin (GAME_HEIGHT - 20) y)) player in
      let player := Player.set_vx vx player in
      let player := Player.set_vy vy player in
      GameRoom.set_players (JSMap.set playerId player (GameRoom.players r)) r
  | None => r
  end.

Definition scorePoint (playerId : option string) (r : GameRoom.t) : GameRoom.t :=
  if negb (truthy playerId) then r
  else
    match playerId with
    | None => r
    | Some pid =>
        match JSMap.get pid (GameRoom.players r) with
        | Some player =>
            let s := GameRoom.score r in
            let s :=
              match Player.team player with
              | team1 => Score.mk (Score.team1 s + 2)%Z (Score.team2 s)
              | team2 => Score.mk (Score.team1 s) (Score.team2 s + 2)%Z
              end in
            let player := Player.set_score (Player.score player + 2)%Z player in
            GameRoom.set_players (JSMap.set pid player (GameRoom.players r))
              (GameRoom.set_score s r)
        | None => r
        end
    end.

Definition resetBall (r : GameRoom.t) : GameRoom.t :=
  let r := GameRoom.set_ball (Ball.mk CENTER_X CENTER_Y 0 0 None false) r in
  GameRoom.set_players
    (JSMap.forEach (Player.set_hasBall false) (GameRoom.players r)) r.

Definition throwBall (direction power : R) (r : GameRoom.t) : GameRoom.t :=
  if truthy (Ball.owner (GameRoom.ball r)) then
    match Ball.owner (GameRoom.ball r) with
    | None => r
    | Some oid =>
        match JSMap.get oid (GameRoom.players r) with
        | Some owner =>
            let angle := direction in
            let strength := Rmin power 100 / 100 in
            let b := GameRoom.ball r in
            let b := Ball.set_vx (cos angle * strength) b in
            let b := Ball.set_vy (sin angle * strength) b in
            let b := Ball.set_owner None b in
            let owner := Player.set_hasBall false owner in
            GameRoom.set_players (JSMap.set oid owner (GameRoom.players r))
              (GameRoom.set_ball b r)
        | None => r
        end
    end
  else r.

(** [now1] and [now2] are the two readings of the clock, in order. *)
Definition startGame (now1 now2 : Z) (r : GameRoom.t) : bool * GameRoom.t :=
  if (2 <=? JSMap.size (GameRoom.players r))%nat then
    let r := GameRoom.set_gameState playing r in
    let r := GameRoom.set_gameStartTime (Some now1) r in
    let r := GameRoom.set_lastUpdate now2 r in
    (true, r)
  else (false, r).

(** The callback of [this.players.forEach] at the end of [updateBall], run
    over the entries in order: it reads and writes [this.ball.owner] and
    writes [hasBall] of the visited player. *)
Fixpoint pickup (b : Ball.t) (ps : JSMap.t Player.t) : Ball.t * JSMap.t Player.t :=
  match ps with
  | [] => (b, [])
  | (k, player) :: rest =>
      if negb (truthy (Ball.owner b)) then
        let distToPlayer :=
          sqrt ((Ball.x b - Player.x player) ^ 2 + (Ball.y b - Player.y player) ^ 2) in
        if js_lt distToPlayer 35 then
          let b := Ball.set_owner (Some (Player.id player)) b in
          let player := Player.set_hasBall true player in
          let (b', rest') := pickup b rest in
          (b', (k, player) :: rest')
        else
          let (b', rest') := pickup b rest in
          (b', (k, player) :: rest')
      else
        let (b', rest') := pickup b rest in
        (b', (k, player) :: rest')
  end.

(** "Apply physics to ball" and "Apply gravity and friction". *)
Definition applyPhysics (timeDelta : R) (b : Ball.t) : Ball.t :=
  let b := Ball.set_x (Ball.x b + Ball.vx b * timeDelta * BALL_SPEED) b in
  let b := Ball.set_y (Ball.y b + Ball.vy b * timeDelta * BALL_SPEED) b in
  let b := Ball.set_vy (Ball.vy b + 5 * timeDelta) b in
  let b := Ball.set_vx (Ball.vx b * 0.98) b in
  let b := Ball.set_vy (Ball.vy b * 0.98) b in
  b.

(** "Ball collision with walls": the four tests, in order. *)
Definition wallCollision (b : Ball.t) : Ball.t :=
  let b :=
    if js_lt (Ball.x b - BALL_RADIUS) 0
    then Ball.set_vx (Rabs (Ball.vx b)) (Ball.set_x BALL_RADIUS b) else b in
  let b :=
    if js_gt (Ball.x b + BALL_RADIUS) GAME_WIDTH
    then Ball.set_vx (- Rabs (Ball.vx b)) (Ball.set_x (GAME_WIDTH - BALL_RADIUS) b) else b in
  let b :=
    if js_lt (Ball.y b - BALL_RADIUS) 0
    then Ball.set_vy (Rabs (Ball.vy b)) (Ball.set_y BALL_RADIUS b) else b in
  let b :=
    if js_gt (Ball.y b + BALL_RADIUS) GAME_HEIGHT
    then Ball.set_vy (- Rabs (Ball.vy b) * 0.7) (Ball.set_y (GAME_HEIGHT - BALL_RADIUS) b)
    else b in
  b.

Definition distToBasket (b : Ball.t) : R :=
  sqrt ((Ball.x b - BASKET_X) ^ 2 + (Ball.y b - BASKET_Y) ^ 2).

(** "Check basket collision". *)
Definition basketCollision (r : GameRoom.t) : GameRoom.t :=
  if js_lt (distToBasket (GameRoom.ball r)) 30 then
    let r := GameRoom.set_ball (Ball.set_inBasket true (GameRoom.ball r)) r in
    let r := scorePoint (Ball.owner (GameRoom.ball r)) r in
    resetBall r
  else r.

(** "Check ball collision with players". *)
Definition playerCollision (r : GameRoom.t) : GameRoom.t :=
  let (b, ps) := pickup (GameRoom.ball r) (GameRoom.players r) in
  GameRoom.set_players ps (GameRoom.set_ball b r).

(** [(Date.now () - this.lastUpdate) / 1000], with [now] the reading of the
    clock. *)
Definition timeDelta (now : Z) (r : GameRoom.t) : R :=
  IZR (now - GameRoom.lastUpdate r) / 1000.

(** [now1] and [now2] are the two readings of the clock, in order. *)
Definition updateBall (now1 now2 : Z) (r : GameRoom.t) : GameRoom.t :=
  if negb (GameState_eqb (GameRoom.gameState r) playing) then r
  else
    let timeDelta := timeDelta now1 r in
    let r := GameRoom.set_lastUpdate now2 r in
    let r :=
      if truthy (Ball.owner (GameRoom.ball r)) then
        match Ball.owner (GameRoom.ball r) with
        | None => r
        | Some oid =>
            match JSMap.get oid (GameRoom.players r) with
            | Some owner =>
                let b := GameRoom.ball r in
                let b := Ball.set_x (Player.x owner + 15) b in
                let b := Ball.set_y (Player.y owner + 15) b in
                GameRoom.set_ball b r
            | None => r
            end
        end
      else
        let b := applyPhysics timeDelta (GameRoom.ball r) in
        let b := wallCollision b in
        basketCollision (GameRoom.set_ball b r) in
    playerCollision r.

(** [getGameState ()]: the snapshot sent to the clients. *)
Module Snapshot.
Record t : Type := mk {
  roomId : string;
  players : list Player.t;
  ball : Ball.t;
  score : Score.t;
  gameState : GameState;
  gameStartTime : option Z
}.
End Snapshot.

Definition getGameState (r : GameRoom.t) : Snapshot.t :=
  Snapshot.mk (GameRoom.id r) (JSMap.values (GameRoom.players r)) (GameRoom.ball r)
    (GameRoom.score r) (GameRoom.gameState r) (GameRoom.gameStartTime r).

(** ** Room operations as data

    The operations a room receives: the methods of [GameRoom], and the two
    assignments to [gameState] made by the [pause-game] and [resume-game]
    handlers. *)

Inductive Op : Type :=
| OpAddPlayer (playerId : string) (playerData : PlayerData.t)
| OpRemovePlayer (playerId : string)
| OpUpdatePlayerPosition (playerId : string) (x y vx vy : R)
| OpThrowBall (direction power : R)
| OpStartGame (now1 now2 : Z)
| OpUpdateBall (now1 now2 : Z)
| OpPause
| OpResume.

Definition step (op : Op) (r : GameRoom.t) : GameRoom.t :=
  match op with
  | OpAddPlayer playerId playerData => snd (addPlayer playerId playerData r)
  | OpRemovePlayer playerId => snd (removePlayer playerId r)
  | OpUpdatePlayerPosition playerId x y vx vy => updatePlayerPosition playerId x y vx vy r
  | OpThrowBall direction power => throwBall direction power r
  | OpStartGame now1 now2 => snd (startGame now1 now2 r)
  | OpUpdateBall now1 now2 => updateBall now1 now2 r
  | OpPause => GameRoom.set_gameState paused r
  | OpResume => GameRoom.set_gameState playing r
  end.

Definition run (ops : list Op) (r : GameRoom.t) : GameRoom.t :=
  fold_left (fun r op => step op r) ops r.

(** ** The server around the rooms

    [gameRooms], [playerSockets] and [gameLoops] are the three global maps.
    [gameLoops] maps a room id to the handle of its live interval; the handle
    is only ever passed to [clearInterval] together with the removal of the
    entry, so the entry itself stands for the interval ([unit]).  [sent] is
    the list of the messages given to [io.to (room).emit], oldest first. *)

Module Session.
Record t : Type := mk { roomId : string; playerId : string }.
End Session.

Module Message.
Record t : Type := mk {
  to : string;
  event : string;
  payload : option Snapshot.t
}.
End Message.

Module Server.
Record t : Type := mk {
  gameRooms : JSMap.t GameRoom.t;
  playerSockets : JSMap.t Session.t;
  gameLoops : JSMap.t unit;
  sent : list Message.t
}.

Definition set_gameRooms (v : JSMap.t GameRoom.t) (s : t) : t :=
  mk v (playerSockets s) (gameLoops s) (sent s).
Definition set_playerSockets (v : JSMap.t Session.t) (s : t) : t :=
  mk (gameRooms s) v (gameLoops s) (sent s).
Definition set_gameLoops (v : JSMap.t unit) (s : t) : t :=
  mk (gameRooms s) (playerSockets s) v (sent s).

Definition emit (to event : string) (payload : option Snapshot.t) (s : t) : t :=
  mk (gameRooms s) (playerSockets s) (gameLoops s)
     (sent s ++ [Message.mk to event payload])%list.

Definition init : t := mk JSMap.empty JSMap.empty JSMap.empty [].
End Server.

Definition startGameLoop (roomId : string) (s : Server.t) : Server.t :=
  if JSMap.has roomId (Server.gameLoops s) then s
  else Server.set_gameLoops (JSMap.set roomId tt (Server.gameLoops s)) s.

(** The callback given to [setInterval] by [startGameLoop roomId]. *)
Definition gameLoop (roomId : string) (now1 now2 : Z) (s : Server.t) : Server.t :=
  match JSMap.get roomId (Server.gameRooms s) with
  | Some room =>
      if negb (GameState_eqb (GameRoom.gameState room) playing) then
        Server.set_gameLoops (JSMap.delete roomId (Server.gameLoops s)) s
      else
        let room := updateBall now1 now2 room in
        let s := Server.set_gameRooms (JSMap.set roomId room (Server.gameRooms s)) s in
        Server.emit roomId "game-update" (Some (getGameState room)) s
  | None => Server.set_gameLoops (JSMap.delete roomId (Server.gameLoops s)) s
  end.

(** One period of the interval of [roomId]: its callback runs when the
    interval is live, and nothing runs otherwise. *)
Definition tick (roomId : string) (now1 now2 : Z) (s : Server.t) : Server.t :=
  if JSMap.has roomId (Server.gameLoops s) then gameLoop roomId now1 now2 s else s.

(** [socket.on ('join-room')]; the boolean is the [success] of the
    acknowledgement, [now] the clock read by a room created here. *)
Definition on_join_room (socket_id roomId playerName : string) (now : Z)
    (s : Server.t) : bool * Server.t :=
  let room :=
    match JSMap.get roomId (Server.gameRooms s) with
    | Some room => room
    | None => constructor roomId now
    end in
  let (success, room) := addPlayer socket_id (PlayerData.mk playerName) room in
  let s := Server.set_gameRooms (JSMap.set roomId room (Server.gameRooms s)) s in
  if success then
    let s :=
      Server.set_playerSockets
        (JSMap.set socket_id (Session.mk roomId socket_id) (Server.playerSockets s)) s in
    (true, Server.emit roomId "room-update" (Some (getGameState room)) s)
  else (false, s).

(** [socket.on ('start-game')]. *)
Definition on_start_game (socket_id : string) (now1 now2 : Z) (s : Server.t) : Server.t :=
  match JSMap.get socket_id (Server.playerSockets s) with
  | None => s
  | Some playerData =>
      match JSMap.get (Session.roomId playerData) (Server.gameRooms s) with
      | None => s
      | Some room =>
          let (ok, room) := startGame now1 now2 room in
          if ok then
            let s :=
              Server.set_gameRooms
                (JSMap.set (Session.roomId playerData) room (Server.gameRooms s)) s in
            let s :=
              Server.emit (Session.roomId playerData) "game-started"
                (Some (getGameState room)) s in
            startGameLoop (Session.roomId playerData) s
          else s
      end
  end.

(** [socket.on ('pause-game')] and [socket.on ('resume-game')]: the new
    [gameState] and the event are the only differences. *)
Definition on_set_state (v : GameState) (event : string) (socket_id : string)
    (s : Server.t) : Server.t :=
  match JSMap.get socket_id (Server.playerSockets s) with
  | None => s
  | Some playerData =>
      match JSMap.get (Session.roomId playerData) (Server.gameRooms s) with
      | None => s
      | Some room =>
          let room := GameRoom.set_gameState v room in
          let s :=
            Server.set_gameRooms
              (JSMap.set (Session.roomId playerData) room (Server.gameRooms s)) s in
          Server.emit (Session.roomId playerData) event (Some (getGameState room)) s
      end
  end.

Definition on_pause_game : string -> Server.t -> Server.t :=
  on_set_state paused "game-paused".

Definition on_resume_game : string -> Server.t -> Server.t :=
  on_set_state playing "game-resumed".

(** [socket.on ('leave-room')]. *)
Definition on_leave_room (socket_id : string) (s : Server.t) : Server.t :=
  match JSMap.get socket_id (Server.playerSockets s) with
  | None => s
  | Some playerData =>
      let s :=
        match JSMap.get (Session.roomId playerData) (Server.gameRooms s) with
        | None => s
        | Some room =>
            let (isEmpty, room) := removePlayer socket_id room in
            if isEmpty then
              let s :=
                Server.set_gameRooms
                  (JSMap.delete (Session.roomId playerData) (Server.gameRooms s)) s in
              Server.emit (Session.roomId playerData) "room-closed" None s
            else
              let s :=
                Server.set_gameRooms
                  (JSMap.set (Session.roomId playerData) room (Server.gameRooms s)) s in
              Server.emit (Session.roomId playerData) "room-update"
                (Some (getGameState room)) s
        end in
      Server.set_playerSockets (JSMap.delete socket_id (Server.playerSockets s)) s
  end.

(** What happens to the server, one event at a time: a message of a socket,
    or one period of the interval of a room. *)
Inductive Event : Type :=
| JoinRoom (socket_id roomId playerName : string) (now : Z)
| StartGame (socket_id : string) (now1 now2 : Z)
| PauseGame (socket_id : string)
| ResumeGame (socket_id : string)
| LeaveRoom (socket_id : string)
| Tick (roomId : string) (now1 now2 : Z).

Definition handle (e : Event) (s : Server.t) : Server.t :=
  match e with
  | JoinRoom socket_id roomId playerName now =>
      snd (on_join_room socket_id roomId playerName now s)
  | StartGame socket_id now1 now2 => on_start_game socket_id now1 now2 s
  | PauseGame socket_id => on_pause_game socket_id s
  | ResumeGame socket_id => on_resume_game socket_id s
  | LeaveRoom socket_id => on_leave_room socket_id s
  | Tick roomId now1 now2 => tick roomId now1 now2 s
  end.

Definition serve (es : list Event) (s : Server.t) : Server.t :=
  fold_left (fun s e => handle e s) es s.

(** ** The rest of the server: the other handlers, the sweep and the routes *)

(** [socket.on ('player-move')]. *)
Definition on_player_move (socket_id : string) (x y vx vy : R) (s : Server.t) : Server.t :=
  match JSMap.get socket_id (Server.playerSockets s) with
  | None => s
  | Some playerData =>
      match JSMap.get (Session.roomId playerData) (Server.gameRooms s) with
      | None => s
      | Some room =>
          let room := updatePlayerPosition socket_id x y vx vy room in
          let s :=
            Server.set_gameRooms
              (JSMap.set (Session.roomId playerData) room (Server.gameRooms s)) s in
          Server.emit (Session.roomId playerData) "room-update"
            (Some (getGameState room)) s
      end
  end.

(** [socket.on ('throw-ball')]. *)
Definition on_throw_ball (socket_id : string) (direction power : R) (s : Server.t)
    : Server.t :=
  match JSMap.get socket_id (Server.playerSockets s) with
  | None => s
  | Some playerData =>
      match JSMap.get (Session.roomId playerData) (Server.gameRooms s) with
      | None => s
      | Some room =>
          let room := throwBall direction power room in
          let s :=
            Server.set_gameRooms
              (JSMap.set (Session.roomId playerData) room (Server.gameRooms s)) s in
          Server.emit (Session.roomId playerData) "room-update"
            (Some (getGameState room)) s
      end
  end.

(** [socket.on ('disconnect')]: as [leave-room], but an emptied room is
    deleted without a [room-closed] message. *)
Definition on_disconnect (socket_id : string) (s : Server.t) : Server.t :=
  match JSMap.get socket_id (Server.playerSockets s) with
  | None => s
  | Some playerData =>
      let s :=
        match JSMap.get (Session.roomId playerData) (Server.gameRooms s) with
        | None => s
        | Some room =>
            let (isEmpty, room) := removePlayer socket_id room in
            if isEmpty then
              Server.set_gameRooms
                (JSMap.delete (Session.roomId playerData) (Server.gameRooms s)) s
            else
              let s :=
                Server.set_gameRooms
                  (JSMap.set (Session.roomId playerData) room (Server.gameRooms s)) s in
              Server.emit (Session.roomId playerData) "room-update"
                (Some (getGameState room)) s
        end in
      Server.set_playerSockets (JSMap.delete socket_id (Server.playerSockets s)) s
  end.

(** The callback of [gameRooms.forEach] in the cleanup interval, on one
    entry. *)
Definition cleanupRoom (s : Server.t) (entry : string * GameRoom.t) : Server.t :=
  let (roomId, room) := entry in
  if (JSMap.size (GameRoom.players room) =? 0)%nat then
    let s := Server.set_gameRooms (JSMap.delete roomId (Server.gameRooms s)) s in
    if JSMap.has roomId (Server.gameLoops s)
    then Server.set_gameLoops (JSMap.delete roomId (Server.gameLoops s)) s
    else s
  else s.

(** One run of the cleanup interval: the callback visits every entry of
    [gameRooms] once, in order, and deletes at most the entry it visits. *)
Definition cleanup (s : Server.t) : Server.t :=
  fold_left cleanupRoom (Server.gameRooms s) s.

(** An element of the answer of [GET /api/rooms]. *)
Module RoomInfo.
Record t : Type := mk {
  id : string;
  playerCount : nat;
  maxPlayers : nat;
  gameState : GameState;
  score : Score.t
}.
End RoomInfo.

(** [app.get ('/api/rooms')]: the body of the answer. *)
Definition api_rooms (s : Server.t) : list RoomInfo.t :=
  map (fun room =>
         RoomInfo.mk (GameRoom.id room) (JSMap.size (GameRoom.players room))
           (GameRoom.maxPlayers room) (GameRoom.gameState room) (GameRoom.score room))
      (JSMap.values (Server.gameRooms s)).

(** [app.post ('/api/rooms')]: the room id of the answer and the server.
    [now1] is the clock read for the id, [now2] the clock read by the
    constructor; the id is the text [room-] followed by [now1] in decimal. *)
Definition api_create_room (now1 now2 : Z) (s : Server.t) : string * Server.t :=
  let roomId := "room-" ++ NilZero.string_of_int (Z.to_int now1) in
  let room := constructor roomId now2 in
  (roomId, Server.set_gameRooms (JSMap.set roomId room (Server.gameRooms s)) s).

(** What happens to the server, with every handler, the sweep and the
    creation route. *)
Inductive Action : Type :=
| Socket (e : Event)
| CreateRoom (now1 now2 : Z)
| PlayerMove (socket_id : string) (x y vx vy : R)
| ThrowBall (socket_id : string) (direction power : R)
| Disconnect (socket_id : string)
| Cleanup.

Definition act (a : Action) (s : Server.t) : Server.t :=
  match a with
  | Socket e => handle e s
  | CreateRoom now1 now2 => snd (api_create_room now1 now2 s)
  | PlayerMove socket_id x y vx vy => on_player_move socket_id x y vx vy s
  | ThrowBall socket_id direction power => on_throw_ball socket_id direction power s
  | Disconnect socket_id => on_disconnect socket_id s
  | Cleanup => cleanup s
  end.

Definition perform (acts : list Action) (s : Server.t) : Server.t :=
  fold_left (fun s a => act a s) acts s.

(** * Vocabulary of the properties

    The rooms, predicates and statements the properties below are about. *)

(** The object [addPlayer] stores for [playerId] in room [r]. *)
Definition newPlayer (playerId : string) (playerData : PlayerData.t) (r : GameRoom.t)
    : Player.t :=
  let size := JSMap.size (GameRoom.players r) in
  let team := if (size <? 3)%nat then team1 else team2 in
  Player.mk playerId (PlayerData.name playerData) team
    (match team with team1 => 100 | team2 => GAME_WIDTH - 100 end)
    (CENTER_Y + INR (size mod 3) * 80 - 80)
    0 0 false 0%Z true.

(** C10 as the specification words it: below capacity [addPlayer] succeeds in
    every phase and changes nothing but the players map, where every player
    already present keeps its state. *)
Definition addPlayer_only_inserts : Prop :=
  forall playerId playerData r,
    (JSMap.size (GameRoom.players r) < GameRoom.maxPlayers r)%nat ->
    let r' := snd (addPlayer playerId playerData r) in
    fst (addPlayer playerId playerData r) = true /\
    GameRoom.gameState r' = GameRoom.gameState r /\
    GameRoom.ball r' = GameRoom.ball r /\
    GameRoom.score r' = GameRoom.score r /\
    GameRoom.gameStartTime r' = GameRoom.gameStartTime r /\
    GameRoom.lastUpdate r' = GameRoom.lastUpdate r /\
    (forall q p,
        JSMap.get q (GameRoom.players r) = Some p ->
        JSMap.get q (GameRoom.players r') = Some p).

(** [updateBall] before its last loop, on a free ball. *)
Definition flight (now1 : Z) (r : GameRoom.t) : Ball.t :=
  wallCollision (applyPhysics (timeDelta now1 r) (GameRoom.ball r)).

(** The operations that call [startGame]. *)
Definition is_startGame (op : Op) : bool :=
  match op with OpStartGame _ _ => true | _ => false end.

(** C7 as the specification words it: once a room has a start time, no
    operation changes it. *)
Definition gameStartTime_set_once : Prop :=
  forall roomId now ops op t,
    let r := run ops (constructor roomId now) in
    GameRoom.gameStartTime r = Some t ->
    GameRoom.gameStartTime (step op r) = Some t.

(** A game of two in which ["s1"], standing under the basket, holds the
    ball. *)
Definition held_room : GameRoom.t :=
  GameRoom.mk "room"
    [("s1", Player.mk "s1" "Ann" team1 909 135 0 0 true 0%Z true);
     ("s2", Player.mk "s2" "Bob" team1 100 300 0 0 false 0%Z true)]
    (Ball.mk 924 150 0 (784 / 10000) (Some "s1") false)
    (Score.mk 0%Z 0%Z) playing 1032%Z (Some 1000%Z) 6%nat.

(** The strength of a throw as the specification words it: [power] clamped
    to the interval from 0 to 100, then divided by 100. *)
Definition clamped_strength (power : R) : R := Rmax 0 (Rmin power 100) / 100.

(** C3 as the specification words it: a throw by the owner gives the ball
    the velocity [(cos direction, sin direction)] scaled by the clamped
    strength and frees it. *)
Definition throwBall_clamps_power : Prop :=
  forall direction power r oid owner,
    Ball.owner (GameRoom.ball r) = Some oid ->
    oid <> EmptyString ->
    JSMap.get oid (GameRoom.players r) = Some owner ->
    let r' := throwBall direction power r in
    Ball.vx (GameRoom.ball r') = cos direction * clamped_strength power /\
    Ball.vy (GameRoom.ball r') = sin direction * clamped_strength power /\
    Ball.owner (GameRoom.ball r') = None.

(** The player objects stored by the successful [addPlayer] calls of [ops],
    in the order of the calls. *)
Fixpoint joined (ops : list Op) (r : GameRoom.t) : list Player.t :=
  match ops with
  | [] => []
  | op :: ops' =>
      match op with
      | OpAddPlayer playerId playerData =>
          if fst (addPlayer playerId playerData r)
          then newPlayer playerId playerData r :: joined ops' (step op r)
          else joined ops' (step op r)
      | _ => joined ops' (step op r)
      end
  end.

(** The operations that call [addPlayer] or [removePlayer]. *)
Definition is_join_or_leave (op : Op) : bool :=
  match op with OpAddPlayer _ _ | OpRemovePlayer _ => true | _ => false end.

(** The team of the joiner that finds [n] players before it. *)
Definition team_of_rank (n : nat) : Team := if (n <? 3)%nat then team1 else team2.

(** C6 as the specification words it: whatever joins and removals a room
    receives, its first three joiners are on team 1 and the next three on
    team 2. *)
Definition team_by_join_order : Prop :=
  forall roomId now ops n p,
    forallb is_join_or_leave ops = true ->
    (n < 6)%nat ->
    nth_error (joined ops (constructor roomId now)) n = Some p ->
    Player.team p = team_of_rank n.

(** The operations of a list of joins. *)
Definition joins (l : list (string * PlayerData.t)) : list Op :=
  map (fun j => OpAddPlayer (fst j) (snd j)) l.




(** A game of two that has just started at time 1000, with ["s1"] moved next
    to the ball at mid-field. *)
Definition ready_room : GameRoom.t :=
  run [OpAddPlayer "s1" (PlayerData.mk "Ann"); OpAddPlayer "s2" (PlayerData.mk "Bob");
       OpUpdatePlayerPosition "s1" 500 290 0 0; OpStartGame 1000 1000]
      (constructor "room" 0).





(** [wallCollision] as two passes.  The first pass: the left and right
    walls. *)
Definition sideWalls (b : Ball.t) : Ball.t :=
  let b :=
    if js_lt (Ball.x b - BALL_RADIUS) 0
    then Ball.set_vx (Rabs (Ball.vx b)) (Ball.set_x BALL_RADIUS b) else b in
  if js_gt (Ball.x b + BALL_RADIUS) GAME_WIDTH
  then Ball.set_vx (- Rabs (Ball.vx b)) (Ball.set_x (GAME_WIDTH - BALL_RADIUS) b) else b.

(** The second pass: the top and bottom walls. *)
Definition endWalls (b : Ball.t) : Ball.t :=
  let b :=
    if js_lt (Ball.y b - BALL_RADIUS) 0
    then Ball.set_vy (Rabs (Ball.vy b)) (Ball.set_y BALL_RADIUS b) else b in
  if js_gt (Ball.y b + BALL_RADIUS) GAME_HEIGHT
  then Ball.set_vy (- Rabs (Ball.vy b) * 0.7) (Ball.set_y (GAME_HEIGHT - BALL_RADIUS) b)
  else b.

(** A free ball at [x] = -5 with [vx] = -3 in a running game. *)
Definition stray_room : GameRoom.t :=
  GameRoom.mk "room"
    [("s1", Player.mk "s1" "Ann" team1 100 220 0 0 false 0%Z true);
     ("s2", Player.mk "s2" "Bob" team1 100 300 0 0 false 0%Z true)]
    (Ball.mk (-5) 300 (-3) 0 None false)
    (Score.mk 0%Z 0%Z) playing 1000%Z (Some 1000%Z) 6%nat.

(** [ready_room] after its first physics step: ["s1"] has caught the ball. *)
Definition caught_room : GameRoom.t :=
  GameRoom.mk "room"
    [("s1", Player.mk "s1" "Ann" team1 500 290 0 0 true 0%Z true);
     ("s2", Player.mk "s2" "Bob" team1 100 300 0 0 false 0%Z true)]
    (Ball.mk 512 300 0 (784 / 10000) (Some "s1") false)
    (Score.mk 0%Z 0%Z) playing 1016%Z (Some 1000%Z) 6%nat.

(** The personal scores of a room, by id. *)
Definition personal_scores (r : GameRoom.t) : list (string * Z) :=
  map (fun kp => (fst kp, Player.score (snd kp))) (GameRoom.players r).

(** [held_room] after ["s1"] has thrown the ball with direction 0 and power
    100. *)
Definition shot_room : GameRoom.t :=
  GameRoom.mk "room"
    [("s1", Player.mk "s1" "Ann" team1 909 135 0 0 false 0%Z true);
     ("s2", Player.mk "s2" "Bob" team1 100 300 0 0 false 0%Z true)]
    (Ball.mk 924 150 1 0 None false)
    (Score.mk 0%Z 0%Z) playing 1032%Z (Some 1000%Z) 6%nat.

(** [shot_room] after its next physics step: the ball is back at mid-field
    and nobody has scored. *)
Definition restart_room : GameRoom.t :=
  GameRoom.mk "room"
    [("s1", Player.mk "s1" "Ann" team1 909 135 0 0 false 0%Z true);
     ("s2", Player.mk "s2" "Bob" team1 100 300 0 0 false 0%Z true)]
    (Ball.mk CENTER_X CENTER_Y 0 0 None false)
    (Score.mk 0%Z 0%Z) playing 1048%Z (Some 1000%Z) 6%nat.

(** Every room in the playing phase has a live interval. *)
Definition loop_while_playing (s : Server.t) : Prop :=
  forall roomId room,
    JSMap.get roomId (Server.gameRooms s) = Some room ->
    GameRoom.gameState room = playing ->
    JSMap.has roomId (Server.gameLoops s) = true.

(** Two sockets join a room, the first starts the game and pauses it, the
    interval comes round once, and the first socket resumes the game. *)
Definition paused_and_resumed : Server.t :=
  serve [JoinRoom "s1" "room" "Ann" 0; JoinRoom "s2" "room" "Bob" 10;
         StartGame "s1" 1000 1000; PauseGame "s1"; Tick "room" 1016 1016;
         ResumeGame "s1"]
        Server.init.

(** The same without the pause. *)
Definition started : Server.t :=
  serve [JoinRoom "s1" "room" "Ann" 0; JoinRoom "s2" "room" "Bob" 10;
         StartGame "s1" 1000 1000]
        Server.init.


(** The test of the pickup loop: the player is less than 35 units from the
    ball. *)
Definition in_reach (b : Ball.t) (player : Player.t) : bool :=
  js_lt (sqrt ((Ball.x b - Player.x player) ^ 2 + (Ball.y b - Player.y player) ^ 2)) 35.

(** The [updateBall] operations of a list of clock readings. *)
Definition physics_steps (ticks : list (Z * Z)) : list Op :=
  map (fun t => OpUpdateBall (fst t) (snd t)) ticks.

(** A room is stored well under the key [k] when [k] is its id and it holds
    at most its six players. *)
Definition room_ok (k : string) (room : GameRoom.t) : Prop :=
  GameRoom.id room = k /\
  GameRoom.maxPlayers room = 6%nat /\
  (JSMap.size (GameRoom.players room) <= 6)%nat.

(** The three maps of the server have no repeated key, and every room is
    stored well. *)
Definition registry_ok (s : Server.t) : Prop :=
  NoDup (JSMap.keys (Server.gameRooms s)) /\
  NoDup (JSMap.keys (Server.gameLoops s)) /\
  NoDup (JSMap.keys (Server.playerSockets s)) /\
  forall k room, In (k, room) (Server.gameRooms s) -> room_ok k room.

(** Every session is stored under the socket it names as its player, and
    names a room of the server that holds this player. *)
Definition sessions_ok (s : Server.t) : Prop :=
  forall socket_id session,
    JSMap.get socket_id (Server.playerSockets s) = Some session ->
    Session.playerId session = socket_id /\
    exists room,
      JSMap.get (Session.roomId session) (Server.gameRooms s) = Some room /\
      JSMap.has socket_id (GameRoom.players room) = true.

(** The actions that create a room over HTTP. *)
Definition is_create (a : Action) : bool :=
  match a with CreateRoom _ _ => true | _ => false end.

(** A room without players. *)
Definition deserted (room : GameRoom.t) : bool :=
  (JSMap.size (GameRoom.players room) =? 0)%nat.

(** The operations that call [removePlayer]. *)
Definition is_remove (op : Op) : bool :=
  match op with OpRemovePlayer _ => true | _ => false end.

(** A server with one running room, [held_room], and the sessions of its two
    players. *)
Definition held_server : Server.t :=
  Server.mk [("room", held_room)]
    [("s1", Session.mk "room" "s1"); ("s2", Session.mk "room" "s2")]
    [("room", tt)] [].

(** What the sweep does to a map keyed by room ids: one [delete] for every
    deserted entry of [entries], in order. *)
Definition delete_deserted {V : Type} (entries : list (string * GameRoom.t))
    (m : JSMap.t V) : JSMap.t V :=
  fold_left (fun m entry => if deserted (snd entry) then JSMap.delete (fst entry) m else m)
            entries m.

(** * Properties *)

(** ** Facts about [JSMap] *)

Section JSMapFacts.
Context {V : Type}.
Implicit Types (m : JSMap.t V) (k : string) (v : V).

Lemma get_set_same k v m : JSMap.get k (JSMap.set k v m) = Some v.
Proof.
  induction m as [|[k' v'] m IH]; simpl.
  - now rewrite String.eqb_refl.
  - destruct (String.eqb k' k) eqn:E; simpl.
    + now rewrite String.eqb_refl.
    + now rewrite E.
Qed.

Lemma get_set_other k k' v m :
  k <> k' -> JSMap.get k' (JSMap.set k v m) = JSMap.get k' m.
Proof.
  intros Hne. induction m as [|[k0 v0] m IH]; simpl.
  - destruct (String.eqb_spec k k'); [contradiction | reflexivity].
  - destruct (String.eqb_spec k0 k) as [->|Hk]; simpl.
    + destruct (String.eqb_spec k k'); [contradiction | reflexivity].
    + destruct (String.eqb_spec k0 k'); [reflexivity | exact IH].
Qed.

Lemma get_In k v m : JSMap.get k m = Some v -> In (k, v) m.
Proof.
  induction m as [|[k' v'] m IH]; simpl; [discriminate|].
  destruct (String.eqb_spec k' k) as [->|Hk]; intros H.
  - injection H as ->. now left.
  - right. now apply IH.
Qed.

Lemma get_None_keys k m : JSMap.get k m = None <-> ~ In k (JSMap.keys m).
Proof.
  induction m as [|[k' v'] m IH]; simpl.
  - tauto.
  - destruct (String.eqb_spec k' k) as [->|Hk].
    + split; [discriminate | intros H; exfalso; apply H; now left].
    + rewrite IH. tauto.
Qed.

Lemma In_get k v m : NoDup (JSMap.keys m) -> In (k, v) m -> JSMap.get k m = Some v.
Proof.
  induction m as [|[k' v'] m IH]; simpl; [tauto|].
  intros Hnd [Heq|Hin].
  - injection Heq as -> ->. now rewrite String.eqb_refl.
  - inversion Hnd as [|? ? Hk' Hnd']; subst.
    destruct (String.eqb_spec k' k) as [->|Hk].
    + exfalso. apply Hk'. change k with (fst (k, v)). now apply in_map.
    + now apply IH.
Qed.

Lemma has_true k m : JSMap.has k m = true <-> In k (JSMap.keys m).
Proof.
  unfold JSMap.has. destruct (JSMap.get k m) eqn:E.
  - split; [intros _|reflexivity].
    apply get_In in E. change k with (fst (k, v)). now apply in_map.
  - split; [discriminate|]. intros H. now apply get_None_keys in E.
Qed.

Lemma set_absent k v m : JSMap.get k m = None -> JSMap.set k v m = (m ++ [(k, v)])%list.
Proof.
  induction m as [|[k' v'] m IH]; simpl; [reflexivity|].
  destruct (String.eqb k' k); [discriminate|].
  intros H. now rewrite IH.
Qed.

Lemma keys_set_present k v m :
  JSMap.has k m = true -> JSMap.keys (JSMap.set k v m) = JSMap.keys m.
Proof.
  unfold JSMap.has. induction m as [|[k' v'] m IH]; simpl; [discriminate|].
  destruct (String.eqb_spec k' k) as [->|Hk]; simpl; [reflexivity|].
  intros H. f_equal. now apply IH.
Qed.

Lemma keys_set_absent k v m :
  JSMap.has k m = false -> JSMap.keys (JSMap.set k v m) = (JSMap.keys m ++ [k])%list.
Proof.
  unfold JSMap.has. intros H. destruct (JSMap.get k m) eqn:E; [discriminate|].
  rewrite set_absent by assumption. unfold JSMap.keys. now rewrite map_app.
Qed.

Lemma size_keys m : JSMap.size m = List.length (JSMap.keys m).
Proof. unfold JSMap.size, JSMap.keys. now rewrite length_map. Qed.

Lemma size_set k v m :
  JSMap.size (JSMap.set k v m) =
  if JSMap.has k m then JSMap.size m else S (JSMap.size m).
Proof.
  rewrite !size_keys. destruct (JSMap.has k m) eqn:E.
  - now rewrite keys_set_present.
  - rewrite keys_set_absent by assumption. rewrite length_app. simpl. lia.
Qed.

Lemma size_set_le k v m : (JSMap.size (JSMap.set k v m) <= S (JSMap.size m))%nat.
Proof. rewrite size_set. destruct (JSMap.has k m); lia. Qed.

Lemma size_delete_le k m : (JSMap.size (JSMap.delete k m) <= JSMap.size m)%nat.
Proof.
  unfold JSMap.size. induction m as [|[k' v'] m IH]; simpl; [lia|].
  destruct (String.eqb k' k); simpl; lia.
Qed.

Lemma keys_delete_incl k m : incl (JSMap.keys (JSMap.delete k m)) (JSMap.keys m).
Proof.
  induction m as [|[k' v'] m IH]; simpl; [apply incl_refl|].
  destruct (String.eqb k' k); simpl.
  - apply incl_tl, incl_refl.
  - intros x [<-|Hx]; [now left | right; now apply IH].
Qed.

Lemma In_delete k kv m : In kv (JSMap.delete k m) -> In kv m.
Proof.
  induction m as [|[k' v'] m IH]; simpl; [tauto|].
  destruct (String.eqb k' k); simpl; [tauto|].
  intros [<-|H]; [now left | right; now apply IH].
Qed.

Lemma NoDup_keys_delete k m : NoDup (JSMap.keys m) -> NoDup (JSMap.keys (JSMap.delete k m)).
Proof.
  induction m as [|[k' v'] m IH]; simpl; [trivial|].
  intros Hnd. inversion Hnd as [|? ? Hk' Hnd']; subst.
  destruct (String.eqb k' k); simpl; [assumption|].
  constructor; [|now apply IH].
  intros H. apply Hk'. now apply (keys_delete_incl k m).
Qed.

Lemma delete_not_key k m :
  NoDup (JSMap.keys m) -> ~ In k (JSMap.keys (JSMap.delete k m)).
Proof.
  induction m as [|[k' v'] m IH]; simpl; [tauto|].
  intros Hnd. inversion Hnd as [|? ? Hk' Hnd']; subst.
  destruct (String.eqb_spec k' k) as [->|Hk]; simpl; [assumption|].
  intros [H|H]; [contradiction | now apply IH].
Qed.

Lemma NoDup_keys_set k v m : NoDup (JSMap.keys m) -> NoDup (JSMap.keys (JSMap.set k v m)).
Proof.
  intros Hnd. destruct (JSMap.has k m) eqn:E.
  - now rewrite keys_set_present.
  - rewrite keys_set_absent by assumption.
    apply NoDup_app; [assumption | repeat constructor; simpl; tauto |].
    intros x Hx [<-|[]].
    apply has_true in Hx. congruence.
Qed.

Lemma keys_forEach (f : V -> V) m : JSMap.keys (JSMap.forEach f m) = JSMap.keys m.
Proof.
  unfold JSMap.keys, JSMap.forEach. rewrite map_map. reflexivity.
Qed.

Lemma size_forEach (f : V -> V) m : JSMap.size (JSMap.forEach f m) = JSMap.size m.
Proof. unfold JSMap.size, JSMap.forEach. now rewrite length_map. Qed.

Lemma get_forEach (f : V -> V) k m :
  JSMap.get k (JSMap.forEach f m) = option_map f (JSMap.get k m).
Proof.
  induction m as [|[k' v'] m IH]; simpl; [reflexivity|].
  destruct (String.eqb k' k); [reflexivity | exact IH].
Qed.
End JSMapFacts.

(** ** Which fields each method leaves alone *)

Lemma pickup_keys b ps : JSMap.keys (snd (pickup b ps)) = JSMap.keys ps.
Proof.
  revert b. induction ps as [|[k p] ps IH]; intros b; simpl; [reflexivity|].
  destruct (negb (truthy (Ball.owner b))); [destruct (js_lt _ 35)|];
    match goal with |- context [pickup ?b' ps] =>
      specialize (IH b'); destruct (pickup b' ps) end;
    simpl in *; now rewrite IH.
Qed.

Lemma scorePoint_keys o r :
  JSMap.keys (GameRoom.players (scorePoint o r)) = JSMap.keys (GameRoom.players r).
Proof.
  unfold scorePoint. destruct (negb (truthy o)); [reflexivity|].
  destruct o as [pid|]; [|reflexivity].
  destruct (JSMap.get pid (GameRoom.players r)) eqn:E; [|reflexivity].
  simpl. apply keys_set_present. unfold JSMap.has. now rewrite E.
Qed.

Lemma basketCollision_keys r :
  JSMap.keys (GameRoom.players (basketCollision r)) = JSMap.keys (GameRoom.players r).
Proof.
  unfold basketCollision. destruct (js_lt _ 30); [|reflexivity].
  unfold resetBall. simpl. rewrite keys_forEach. now rewrite scorePoint_keys.
Qed.

Lemma playerCollision_keys r :
  JSMap.keys (GameRoom.players (playerCollision r)) = JSMap.keys (GameRoom.players r).
Proof.
  unfold playerCollision.
  pose proof (pickup_keys (GameRoom.ball r) (GameRoom.players r)) as H.
  destruct (pickup _ _). exact H.
Qed.

Lemma updateBall_keys now1 now2 r :
  JSMap.keys (GameRoom.players (updateBall now1 now2 r)) = JSMap.keys (GameRoom.players r).
Proof.
  unfold updateBall. destruct (negb _); [reflexivity|].
  rewrite playerCollision_keys.
  destruct (truthy _).
  - simpl. destruct (Ball.owner _); [|reflexivity]. now destruct (JSMap.get _ _).
  - now rewrite basketCollision_keys.
Qed.

Lemma throwBall_keys direction power r :
  JSMap.keys (GameRoom.players (throwBall direction power r)) =
  JSMap.keys (GameRoom.players r).
Proof.
  unfold throwBall. destruct (truthy _); [|reflexivity].
  destruct (Ball.owner _) as [oid|]; [|reflexivity].
  destruct (JSMap.get oid _) eqn:E; [|reflexivity].
  simpl. apply keys_set_present. unfold JSMap.has. now rewrite E.
Qed.

Lemma updatePlayerPosition_keys playerId x y vx vy r :
  JSMap.keys (GameRoom.players (updatePlayerPosition playerId x y vx vy r)) =
  JSMap.keys (GameRoom.players r).
Proof.
  unfold updatePlayerPosition. destruct (JSMap.get playerId _) eqn:E; [|reflexivity].
  simpl. apply keys_set_present. unfold JSMap.has. now rewrite E.
Qed.

Lemma scorePoint_maxPlayers o r :
  GameRoom.maxPlayers (scorePoint o r) = GameRoom.maxPlayers r.
Proof.
  unfold scorePoint. destruct (negb _); [reflexivity|].
  destruct o; [|reflexivity]. now destruct (JSMap.get _ _).
Qed.

Lemma updateBall_maxPlayers now1 now2 r :
  GameRoom.maxPlayers (updateBall now1 now2 r) = GameRoom.maxPlayers r.
Proof.
  unfold updateBall, playerCollision, basketCollision, resetBall.
  destruct (negb _); [reflexivity|].
  destruct (pickup _ _) eqn:E. simpl.
  destruct (truthy _).
  - destruct (Ball.owner _); [|reflexivity]. now destruct (JSMap.get _ _).
  - destruct (js_lt _ 30); [|reflexivity]. simpl. now rewrite scorePoint_maxPlayers.
Qed.

Lemma step_maxPlayers op r : GameRoom.maxPlayers (step op r) = GameRoom.maxPlayers r.
Proof.
  destruct op; simpl; try reflexivity.
  - unfold addPlayer. now destruct (_ <=? _)%nat.
  - unfold removePlayer. simpl. now destruct (strict_eq _ _).
  - unfold updatePlayerPosition. now destruct (JSMap.get _ _).
  - unfold throwBall. destruct (truthy _); [|reflexivity].
    destruct (Ball.owner _); [|reflexivity]. now destruct (JSMap.get _ _).
  - unfold startGame. now destruct (_ <=? _)%nat.
  - apply updateBall_maxPlayers.
Qed.

(** No operation takes a room over its capacity. *)
Lemma step_capacity op r :
  (JSMap.size (GameRoom.players r) <= GameRoom.maxPlayers r)%nat ->
  (JSMap.size (GameRoom.players (step op r)) <= GameRoom.maxPlayers (step op r))%nat.
Proof.
  intros H. rewrite step_maxPlayers. destruct op; simpl; try exact H.
  - unfold addPlayer. destruct (Nat.leb_spec (GameRoom.maxPlayers r)
      (JSMap.size (GameRoom.players r))); simpl; [exact H|].
    eapply Nat.le_trans; [apply size_set_le | lia].
  - unfold removePlayer. simpl.
    destruct (strict_eq _ _); simpl;
      (eapply Nat.le_trans; [apply size_delete_le | exact H]).
  - now rewrite size_keys, updatePlayerPosition_keys, <- size_keys.
  - now rewrite size_keys, throwBall_keys, <- size_keys.
  - unfold startGame. now destruct (_ <=? _)%nat.
  - now rewrite size_keys, updateBall_keys, <- size_keys.
Qed.

Lemma run_capacity ops r :
  (JSMap.size (GameRoom.players r) <= GameRoom.maxPlayers r)%nat ->
  (JSMap.size (GameRoom.players (run ops r)) <= GameRoom.maxPlayers (run ops r))%nat.
Proof.
  revert r. induction ops as [|op ops IH]; intros r H; simpl; [exact H|].
  apply IH. now apply step_capacity.
Qed.

Lemma run_maxPlayers ops r : GameRoom.maxPlayers (run ops r) = GameRoom.maxPlayers r.
Proof.
  revert r. induction ops as [|op ops IH]; intros r; simpl; [reflexivity|].
  rewrite IH. apply step_maxPlayers.
Qed.

(** ** Capacity *)

(** C4.  From its creation on, whatever operations a room receives, it never
    holds more than [maxPlayers] = 6 players; and [addPlayer] on a room that
    holds [maxPlayers] players or more returns [false] and leaves the room as
    it was, so the seventh join of a full room is refused with the state
    unchanged. *)
Theorem capacity_never_exceeded :
  (forall roomId now ops,
      let r := run ops (constructor roomId now) in
      GameRoom.maxPlayers r = 6%nat /\
      (JSMap.size (GameRoom.players r) <= 6)%nat) /\
  (forall playerId playerData r,
      (GameRoom.maxPlayers r <= JSMap.size (GameRoom.players r))%nat ->
      addPlayer playerId playerData r = (false, r)) /\
  (forall roomId now ops playerId playerData,
      let r := run ops (constructor roomId now) in
      JSMap.size (GameRoom.players r) = 6%nat ->
      addPlayer playerId playerData r = (false, r)).
Proof.
  assert (Hfull : forall playerId playerData r,
             (GameRoom.maxPlayers r <= JSMap.size (GameRoom.players r))%nat ->
             addPlayer playerId playerData r = (false, r)).
  { intros playerId playerData r H. unfold addPlayer.
    apply Nat.leb_le in H. now rewrite H. }
  split; [|split].
  - intros roomId now ops r.
    assert (Hm : GameRoom.maxPlayers r = 6%nat) by apply run_maxPlayers.
    split; [exact Hm|]. rewrite <- Hm. apply run_capacity. simpl. lia.
  - exact Hfull.
  - intros roomId now ops playerId playerData r Hsize. apply Hfull.
    unfold r in *. rewrite run_maxPlayers. simpl. lia.
Qed.

(** A room of six players, filled by six joins, refuses the seventh. *)
Lemma capacity_never_exceeded_witness :
  let r :=
    run [OpAddPlayer "s1" (PlayerData.mk "Ann"); OpAddPlayer "s2" (PlayerData.mk "Bob");
         OpAddPlayer "s3" (PlayerData.mk "Cat"); OpAddPlayer "s4" (PlayerData.mk "Dan");
         OpAddPlayer "s5" (PlayerData.mk "Eve"); OpAddPlayer "s6" (PlayerData.mk "Fay")]
        (constructor "room" 0) in
  JSMap.size (GameRoom.players r) = 6%nat /\
  addPlayer "s7" (PlayerData.mk "Gus") r = (false, r).
Proof.
  split; [reflexivity|].
  apply (proj2 (proj2 capacity_never_exceeded) "room" 0%Z). reflexivity.
Defined.

(** ** Starting a game *)

(** C8.  [startGame] on a room of fewer than two players returns [false] and
    leaves the room as it was; on a room of two players or more it returns
    [true], sets the phase to [playing], stamps [gameStartTime] and
    [lastUpdate] with the readings of the clock and touches nothing else, so
    that the time delta of a physics step is counted from the start: it is
    [(now - now2) / 1000], zero for a step at the same reading. *)
Theorem startGame_boundary (now1 now2 : Z) (r : GameRoom.t) :
  ((JSMap.size (GameRoom.players r) < 2)%nat -> startGame now1 now2 r = (false, r)) /\
  ((2 <= JSMap.size (GameRoom.players r))%nat ->
   let r' := snd (startGame now1 now2 r) in
   fst (startGame now1 now2 r) = true /\
   GameRoom.gameState r' = playing /\
   GameRoom.gameStartTime r' = Some now1 /\
   GameRoom.lastUpdate r' = now2 /\
   GameRoom.players r' = GameRoom.players r /\
   GameRoom.ball r' = GameRoom.ball r /\
   GameRoom.score r' = GameRoom.score r /\
   (forall now, timeDelta now r' = IZR (now - now2) / 1000) /\
   timeDelta now2 r' = 0).
Proof.
  unfold startGame. split; intros H.
  - destruct (Nat.leb_spec 2 (JSMap.size (GameRoom.players r))); [lia | reflexivity].
  - destruct (Nat.leb_spec 2 (JSMap.size (GameRoom.players r))); [|lia].
    cbn. repeat split; try reflexivity.
    unfold timeDelta. cbn. rewrite Z.sub_diag. lra.
Qed.

(** One player is not enough, two are: the boundary on concrete rooms. *)
Lemma startGame_boundary_witness :
  let r1 := run [OpAddPlayer "s1" (PlayerData.mk "Ann")] (constructor "room" 0) in
  let r2 := run [OpAddPlayer "s2" (PlayerData.mk "Bob")] r1 in
  startGame 1000 1001 r1 = (false, r1) /\
  fst (startGame 1000 1001 r2) = true /\
  GameRoom.gameState (snd (startGame 1000 1001 r2)) = playing /\
  GameRoom.gameStartTime (snd (startGame 1000 1001 r2)) = Some 1000%Z /\
  GameRoom.lastUpdate (snd (startGame 1000 1001 r2)) = 1001%Z.
Proof.
  intros r1 r2. split.
  - apply (proj1 (startGame_boundary 1000 1001 r1)). cbn. lia.
  - assert (H2 : (2 <= JSMap.size (GameRoom.players r2))%nat) by (cbn; lia).
    destruct (proj2 (startGame_boundary 1000 1001 r2) H2) as (A & B & C & D & _).
    repeat split; assumption.
Defined.

(** ** Joining *)

Lemma addPlayer_accepts playerId playerData r :
  (JSMap.size (GameRoom.players r) < GameRoom.maxPlayers r)%nat ->
  addPlayer playerId playerData r =
  (true,
   GameRoom.set_players
     (JSMap.set playerId (newPlayer playerId playerData r) (GameRoom.players r)) r).
Proof.
  intros H. unfold addPlayer.
  destruct (Nat.leb_spec (GameRoom.maxPlayers r) (JSMap.size (GameRoom.players r)));
    [lia | reflexivity].
Qed.

(** C10, counterexample.  Four sockets have joined, ["s1"] first, on team 1.
    A second [addPlayer] for ["s1"] succeeds (the room holds four players) and
    overwrites the entry of ["s1"], who is now on team 2. *)
Lemma addPlayer_overwrites_present_id : ~ addPlayer_only_inserts.
Proof.
  intros H.
  pose (r := run [OpAddPlayer "s1" (PlayerData.mk "Ann"); OpAddPlayer "s2" (PlayerData.mk "Bob");
                  OpAddPlayer "s3" (PlayerData.mk "Cat"); OpAddPlayer "s4" (PlayerData.mk "Dan")]
                 (constructor "room" 0)).
  assert (Hlt : (JSMap.size (GameRoom.players r) < GameRoom.maxPlayers r)%nat)
    by (cbn; lia).
  destruct (H "s1" (PlayerData.mk "Ann") r Hlt) as (_ & _ & _ & _ & _ & _ & Hframe).
  specialize (Hframe "s1" (newPlayer "s1" (PlayerData.mk "Ann") (constructor "room" 0))
                eq_refl).
  cbn in Hframe. discriminate Hframe.
Qed.

(** C10, amended.  Below capacity [addPlayer] succeeds whatever the phase;
    it leaves the phase, the ball, the score, [gameStartTime], [lastUpdate],
    the room id and the capacity unchanged; it stores the fresh player object
    under [playerId]; every entry under another id is unchanged; and when
    [playerId] was not present, the map is the old one with the new entry
    appended. *)
Theorem addPlayer_frame playerId playerData r :
  (JSMap.size (GameRoom.players r) < GameRoom.maxPlayers r)%nat ->
  let r' := snd (addPlayer playerId playerData r) in
  fst (addPlayer playerId playerData r) = true /\
  GameRoom.gameState r' = GameRoom.gameState r /\
  GameRoom.ball r' = GameRoom.ball r /\
  GameRoom.score r' = GameRoom.score r /\
  GameRoom.gameStartTime r' = GameRoom.gameStartTime r /\
  GameRoom.lastUpdate r' = GameRoom.lastUpdate r /\
  GameRoom.id r' = GameRoom.id r /\
  GameRoom.maxPlayers r' = GameRoom.maxPlayers r /\
  JSMap.get playerId (GameRoom.players r') = Some (newPlayer playerId playerData r) /\
  (forall q, q <> playerId ->
             JSMap.get q (GameRoom.players r') = JSMap.get q (GameRoom.players r)) /\
  (JSMap.has playerId (GameRoom.players r) = false ->
   GameRoom.players r' =
   (GameRoom.players r ++ [(playerId, newPlayer playerId playerData r)])%list).
Proof.
  intros H. rewrite (addPlayer_accepts _ _ _ H). cbn.
  repeat split; try reflexivity.
  - apply get_set_same.
  - intros q Hq. apply get_set_other. congruence.
  - unfold JSMap.has. intros Habs. apply set_absent.
    now destruct (JSMap.get playerId (GameRoom.players r)).
Qed.

(** A third socket joins a paused game of two. *)
Lemma addPlayer_frame_witness :
  let r :=
    run [OpAddPlayer "s1" (PlayerData.mk "Ann"); OpAddPlayer "s2" (PlayerData.mk "Bob");
         OpStartGame 1000 1000; OpPause] (constructor "room" 0) in
  fst (addPlayer "s3" (PlayerData.mk "Cat") r) = true /\
  GameRoom.gameState (snd (addPlayer "s3" (PlayerData.mk "Cat") r)) = paused /\
  JSMap.get "s1" (GameRoom.players (snd (addPlayer "s3" (PlayerData.mk "Cat") r))) =
  JSMap.get "s1" (GameRoom.players r).
Proof.
  intros r.
  assert (Hlt : (JSMap.size (GameRoom.players r) < GameRoom.maxPlayers r)%nat)
    by (cbn; lia).
  destruct (addPlayer_frame "s3" (PlayerData.mk "Cat") r Hlt)
    as (A & B & _ & _ & _ & _ & _ & _ & _ & C & _).
  split; [exact A|]. split; [rewrite B; reflexivity|].
  apply C. discriminate.
Defined.

(** ** The start time *)

Lemma scorePoint_falsy o r : truthy o = false -> scorePoint o r = r.
Proof. intros H. unfold scorePoint. now rewrite H. Qed.

Lemma applyPhysics_owner dt b : Ball.owner (applyPhysics dt b) = Ball.owner b.
Proof. reflexivity. Qed.

Lemma wallCollision_owner b : Ball.owner (wallCollision b) = Ball.owner b.
Proof.
  unfold wallCollision.
  repeat match goal with |- context [if ?c then _ else _] => destruct c end;
    reflexivity.
Qed.

(** The basket test on a free ball: no point is given, and the ball is reset
    when it is in range. *)
Lemma basketCollision_free r :
  truthy (Ball.owner (GameRoom.ball r)) = false ->
  basketCollision r =
  if js_lt (distToBasket (GameRoom.ball r)) 30 then resetBall r else r.
Proof.
  intros H. unfold basketCollision. destruct (js_lt _ 30); [|reflexivity].
  cbn. rewrite scorePoint_falsy by exact H.
  unfold resetBall. reflexivity.
Qed.

Lemma updateBall_free now1 now2 r :
  GameRoom.gameState r = playing ->
  truthy (Ball.owner (GameRoom.ball r)) = false ->
  updateBall now1 now2 r =
  let r' := GameRoom.set_ball (flight now1 r) (GameRoom.set_lastUpdate now2 r) in
  playerCollision (if js_lt (distToBasket (flight now1 r)) 30 then resetBall r' else r').
Proof.
  intros Hs Ho. unfold updateBall. rewrite Hs. cbn [GameState_eqb negb].
  cbn [GameRoom.ball GameRoom.set_lastUpdate]. rewrite Ho.
  rewrite basketCollision_free.
  - reflexivity.
  - cbn. now rewrite wallCollision_owner.
Qed.

Lemma updateBall_not_playing now1 now2 r :
  GameRoom.gameState r <> playing -> updateBall now1 now2 r = r.
Proof.
  intros H. unfold updateBall. destruct (GameRoom.gameState r); try reflexivity.
  now elim H.
Qed.

(** What [updateBall] never writes. *)
Lemma updateBall_frame now1 now2 r :
  let r' := updateBall now1 now2 r in
  GameRoom.id r' = GameRoom.id r /\
  GameRoom.score r' = GameRoom.score r /\
  GameRoom.gameState r' = GameRoom.gameState r /\
  GameRoom.gameStartTime r' = GameRoom.gameStartTime r.
Proof.
  destruct (GameState_eqb (GameRoom.gameState r) playing) eqn:Hs.
  - assert (Hp : GameRoom.gameState r = playing)
      by (destruct (GameRoom.gameState r); try discriminate; reflexivity).
    destruct (truthy (Ball.owner (GameRoom.ball r))) eqn:Ho.
    + unfold updateBall, playerCollision. rewrite Hs. cbn [negb].
      cbn [GameRoom.ball GameRoom.set_lastUpdate]. rewrite Ho.
      destruct (Ball.owner (GameRoom.ball r)) as [oid|]; [|discriminate].
      cbn [GameRoom.players].
      destruct (JSMap.get oid _); destruct (pickup _ _); cbn; auto.
    + cbv zeta. rewrite (updateBall_free _ _ _ Hp Ho). unfold playerCollision.
      cbv zeta. destruct (js_lt _ 30); destruct (pickup _ _); cbn; auto.
  - cbv zeta. rewrite updateBall_not_playing; [auto|].
    intros E. rewrite E in Hs. discriminate.
Qed.

Lemma step_gameStartTime op r :
  GameRoom.gameStartTime (step op r) =
  match op with
  | OpStartGame now1 _ =>
      if (2 <=? JSMap.size (GameRoom.players r))%nat then Some now1
      else GameRoom.gameStartTime r
  | _ => GameRoom.gameStartTime r
  end.
Proof.
  destruct op; cbn [step]; try reflexivity.
  - unfold addPlayer. now destruct (_ <=? _)%nat.
  - unfold removePlayer. cbn. now destruct (strict_eq _ _).
  - unfold updatePlayerPosition. now destruct (JSMap.get _ _).
  - unfold throwBall. destruct (truthy _); [|reflexivity].
    destruct (Ball.owner _); [|reflexivity]. now destruct (JSMap.get _ _).
  - unfold startGame. now destruct (2 <=? _)%nat.
  - apply updateBall_frame.
Qed.

(** C7, counterexample.  Two players join and the game starts at 1000; a
    second [startGame] at 2000 moves the start time to 2000. *)
Lemma startGame_restamps : ~ gameStartTime_set_once.
Proof.
  intros H.
  specialize (H "room" 0%Z
                [OpAddPlayer "s1" (PlayerData.mk "Ann"); OpAddPlayer "s2" (PlayerData.mk "Bob");
                 OpStartGame 1000 1000]
                (OpStartGame 2000 2000) 1000%Z eq_refl).
  cbn in H. discriminate H.
Qed.

(** C7, amended.  [gameStartTime] is [null] in a new room and stays [null]
    as long as no [startGame] is called; a [startGame] on a room of two
    players or more sets it to the reading of the clock, whether or not it
    was set before; no other operation, and no refused [startGame], changes
    it. *)
Theorem gameStartTime_written_by_startGame :
  (forall roomId now, GameRoom.gameStartTime (constructor roomId now) = None) /\
  (forall op r,
      GameRoom.gameStartTime (step op r) =
      match op with
      | OpStartGame now1 _ =>
          if (2 <=? JSMap.size (GameRoom.players r))%nat then Some now1
          else GameRoom.gameStartTime r
      | _ => GameRoom.gameStartTime r
      end) /\
  (forall roomId now ops,
      forallb (fun op => negb (is_startGame op)) ops = true ->
      GameRoom.gameStartTime (run ops (constructor roomId now)) = None).
Proof.
  split; [reflexivity|]. split; [exact step_gameStartTime|].
  intros roomId now ops.
  assert (G : forall r, GameRoom.gameStartTime r = None ->
                        forallb (fun op => negb (is_startGame op)) ops = true ->
                        GameRoom.gameStartTime (run ops r) = None).
  { induction ops as [|op ops IH]; intros r Hr Hall; simpl in *; [exact Hr|].
    apply andb_prop in Hall as [Hop Hall]. apply IH; [|exact Hall].
    rewrite step_gameStartTime. destruct op; try exact Hr. discriminate Hop. }
  apply G. reflexivity.
Qed.

(** A game left waiting, whatever else happened, has no start time yet. *)
Lemma gameStartTime_written_by_startGame_witness :
  GameRoom.gameStartTime
    (run [OpAddPlayer "s1" (PlayerData.mk "Ann"); OpUpdatePlayerPosition "s1" 5 5 0 0;
          OpResume; OpUpdateBall 16 16; OpPause]
         (constructor "room" 0)) = None.
Proof.
  apply (proj2 (proj2 gameStartTime_written_by_startGame) "room" 0%Z). reflexivity.
Defined.

(** ** Throwing *)

Lemma truthy_Some s : s <> EmptyString -> truthy (Some s) = true.
Proof.
  intros H. unfold truthy. destruct (String.eqb_spec s EmptyString); [contradiction|].
  reflexivity.
Qed.

Lemma throwBall_owned direction power r oid owner :
  Ball.owner (GameRoom.ball r) = Some oid ->
  oid <> EmptyString ->
  JSMap.get oid (GameRoom.players r) = Some owner ->
  throwBall direction power r =
  GameRoom.set_players
    (JSMap.set oid (Player.set_hasBall false owner) (GameRoom.players r))
    (GameRoom.set_ball
       (Ball.set_owner None
          (Ball.set_vy (sin direction * (Rmin power 100 / 100))
             (Ball.set_vx (cos direction * (Rmin power 100 / 100)) (GameRoom.ball r))))
       r).
Proof.
  intros Ho Hne Hget. unfold throwBall.
  rewrite Ho, (truthy_Some _ Hne), Hget. reflexivity.
Qed.

(** C3, counterexample.  ["s1"] throws with direction 0 and power -50: the
    ball leaves with [vx] = -0.5, where a power clamped to the interval from
    0 to 100 would give 0. *)
Lemma throwBall_negative_power : ~ throwBall_clamps_power.
Proof.
  intros H.
  destruct (H 0 (-50) held_room "s1"
              (Player.mk "s1" "Ann" team1 909 135 0 0 true 0%Z true)
              eq_refl ltac:(discriminate) eq_refl) as (Hvx & _).
  rewrite (throwBall_owned 0 (-50) held_room "s1" _ eq_refl ltac:(discriminate) eq_refl)
    in Hvx.
  cbn in Hvx. unfold clamped_strength in Hvx.
  rewrite cos_0 in Hvx.
  rewrite (Rmin_left (-50) 100) in Hvx by lra.
  rewrite (Rmax_left 0 (-50)) in Hvx by lra.
  lra.
Qed.

(** C3, amended.  [throwBall] changes nothing when the ball has no owner.
    When the ball is owned by a player of the room, the strength is
    [min (power, 100) / 100]: at most 1, equal to [power / 100] up to power
    100 and to 1 above, and negative for a negative power, which is not
    raised to 0; the velocity of the ball becomes
    [(cos direction, sin direction)] times the strength, its position stays,
    the owner is cleared and the thrower's [hasBall] is false.  With
    direction 0 and power 100 the ball leaves with [vx] = 1 and [vy] = 0. *)
Theorem throwBall_spec (direction power : R) (r : GameRoom.t) :
  (truthy (Ball.owner (GameRoom.ball r)) = false -> throwBall direction power r = r) /\
  (forall oid owner,
      Ball.owner (GameRoom.ball r) = Some oid ->
      oid <> EmptyString ->
      JSMap.get oid (GameRoom.players r) = Some owner ->
      let strength := Rmin power 100 / 100 in
      let r' := throwBall direction power r in
      Ball.vx (GameRoom.ball r') = cos direction * strength /\
      Ball.vy (GameRoom.ball r') = sin direction * strength /\
      Ball.owner (GameRoom.ball r') = None /\
      Ball.x (GameRoom.ball r') = Ball.x (GameRoom.ball r) /\
      Ball.y (GameRoom.ball r') = Ball.y (GameRoom.ball r) /\
      JSMap.get oid (GameRoom.players r') = Some (Player.set_hasBall false owner) /\
      strength <= 1 /\
      (power <= 100 -> strength = power / 100) /\
      (100 <= power -> strength = 1) /\
      (power < 0 -> strength < 0)) /\
  (forall oid owner,
      Ball.owner (GameRoom.ball r) = Some oid ->
      oid <> EmptyString ->
      JSMap.get oid (GameRoom.players r) = Some owner ->
      let r' := throwBall 0 100 r in
      Ball.vx (GameRoom.ball r') = 1 /\
      Ball.vy (GameRoom.ball r') = 0 /\
      Ball.owner (GameRoom.ball r') = None).
Proof.
  split; [|split].
  - intros H. unfold throwBall. now rewrite H.
  - intros oid owner Ho Hne Hget strength r'. unfold r'.
    rewrite (throwBall_owned _ _ _ _ _ Ho Hne Hget). cbn.
    repeat split; try reflexivity.
    + apply get_set_same.
    + unfold strength. pose proof (Rmin_r power 100). lra.
    + intros Hp. unfold strength. rewrite Rmin_left by exact Hp. reflexivity.
    + intros Hp. unfold strength. rewrite Rmin_right by exact Hp. lra.
    + intros Hp. unfold strength. rewrite Rmin_left by lra. lra.
  - intros oid owner Ho Hne Hget r'. unfold r'.
    rewrite (throwBall_owned _ _ _ _ _ Ho Hne Hget). cbn.
    rewrite cos_0, sin_0, Rmin_left by lra.
    repeat split; try reflexivity; lra.
Qed.

(** ["s1"] throws with direction 0 and power 100. *)
Lemma throwBall_spec_witness :
  Ball.vx (GameRoom.ball (throwBall 0 100 held_room)) = 1 /\
  Ball.vy (GameRoom.ball (throwBall 0 100 held_room)) = 0 /\
  Ball.owner (GameRoom.ball (throwBall 0 100 held_room)) = None.
Proof.
  apply (proj2 (proj2 (throwBall_spec 0 100 held_room)) "s1"
           (Player.mk "s1" "Ann" team1 909 135 0 0 true 0%Z true)).
  - reflexivity.
  - discriminate.
  - reflexivity.
Defined.

(** ** Teams and spawn slots *)

(** C6, counterexample.  Four sockets join, the first two leave, a fifth
    joins: it finds two players in the room and is put on team 1. *)
Lemma fifth_joiner_on_team1 : ~ team_by_join_order.
Proof.
  intros H.
  specialize (H "room" 0%Z
    [OpAddPlayer "s1" (PlayerData.mk "Ann"); OpAddPlayer "s2" (PlayerData.mk "Bob");
     OpAddPlayer "s3" (PlayerData.mk "Cat"); OpAddPlayer "s4" (PlayerData.mk "Dan");
     OpRemovePlayer "s1"; OpRemovePlayer "s2"; OpAddPlayer "s5" (PlayerData.mk "Eve")]
    4%nat).
  cbn in H. specialize (H _ eq_refl ltac:(lia) eq_refl).
  discriminate H.
Qed.

Lemma joined_joins l : forall r n p,
  GameRoom.maxPlayers r = 6%nat ->
  NoDup (map fst l) ->
  (forall k, In k (map fst l) -> ~ In k (JSMap.keys (GameRoom.players r))) ->
  (n + JSMap.size (GameRoom.players r) < 6)%nat ->
  nth_error (joined (joins l) r) n = Some p ->
  exists playerId playerData,
    nth_error l n = Some (playerId, playerData) /\
    p = Player.mk playerId (PlayerData.name playerData)
          (team_of_rank (n + JSMap.size (GameRoom.players r)))
          (match team_of_rank (n + JSMap.size (GameRoom.players r)) with
           | team1 => 100 | team2 => GAME_WIDTH - 100 end)
          (CENTER_Y + INR ((n + JSMap.size (GameRoom.players r)) mod 3) * 80 - 80)
          0 0 false 0%Z true.
Proof.
  induction l as [|[pid pd] l IH]; intros r n p Hmax Hnd Hfresh Hn Hnth.
  - destruct n; discriminate Hnth.
  - cbn [joins map joined fst snd] in Hnth.
    assert (Hlt : (JSMap.size (GameRoom.players r) < GameRoom.maxPlayers r)%nat) by lia.
    rewrite (addPlayer_accepts pid pd r Hlt) in Hnth. cbn [fst] in Hnth.
    destruct n as [|n].
    + cbn in Hnth. injection Hnth as <-. exists pid, pd. split; reflexivity.
    + cbn [nth_error] in Hnth. cbn [step] in Hnth.
      rewrite (addPlayer_accepts pid pd r Hlt) in Hnth. cbn [snd] in Hnth.
      inversion Hnd as [|? ? Hpid Hnd']; subst.
      assert (Habs : JSMap.has pid (GameRoom.players r) = false).
      { destruct (JSMap.has pid (GameRoom.players r)) eqn:E; [|reflexivity].
        apply has_true in E. exfalso. apply (Hfresh pid); [now left | exact E]. }
      set (r' := GameRoom.set_players _ r) in Hnth.
      assert (Hsize : JSMap.size (GameRoom.players r') = S (JSMap.size (GameRoom.players r))).
      { unfold r'. cbn [GameRoom.players GameRoom.set_players].
        rewrite size_set, Habs. reflexivity. }
      destruct (IH r' n p) as (playerId & playerData & Hl & Hp).
      * exact Hmax.
      * exact Hnd'.
      * intros k Hk Hin. unfold r' in Hin.
        cbn [GameRoom.players GameRoom.set_players] in Hin.
        rewrite keys_set_absent in Hin by exact Habs.
        apply in_app_or in Hin as [Hin|[<-|[]]].
        -- apply (Hfresh k); [now right | exact Hin].
        -- contradiction.
      * lia.
      * exact Hnth.
      * exists playerId, playerData. split; [exact Hl|].
        rewrite Hp, Hsize. now replace (n + S (JSMap.size (GameRoom.players r)))%nat
          with (S n + JSMap.size (GameRoom.players r))%nat by lia.
Qed.

(** C6, amended.  The team and the spawn slot of a joiner are functions of
    the number of players present in the room when it joins: team 1 and
    [x] = 100 when fewer than three are present, team 2 and [x] =
    [GAME_WIDTH] - 100 otherwise, and [y] = [CENTER_Y] + (number present
    modulo 3) * 80 - 80.  In a new room that receives only joins, of distinct
    ids, the number present is the rank of the joiner: the first three joiners
    are on team 1 and the next three on team 2. *)
Theorem team_by_players_present :
  (forall playerId playerData r,
      (JSMap.size (GameRoom.players r) < GameRoom.maxPlayers r)%nat ->
      let size := JSMap.size (GameRoom.players r) in
      let r' := snd (addPlayer playerId playerData r) in
      fst (addPlayer playerId playerData r) = true /\
      exists p,
        JSMap.get playerId (GameRoom.players r') = Some p /\
        Player.team p = team_of_rank size /\
        Player.x p = (match team_of_rank size with
                      | team1 => 100 | team2 => GAME_WIDTH - 100 end) /\
        Player.y p = CENTER_Y + INR (size mod 3) * 80 - 80) /\
  (forall roomId now l n p,
      NoDup (map fst l) ->
      (n < 6)%nat ->
      nth_error (joined (joins l) (constructor roomId now)) n = Some p ->
      Player.team p = team_of_rank n /\
      Player.x p = (match team_of_rank n with
                    | team1 => 100 | team2 => GAME_WIDTH - 100 end) /\
      Player.y p = CENTER_Y + INR (n mod 3) * 80 - 80).
Proof.
  split.
  - intros playerId playerData r H size r'. unfold r'.
    rewrite (addPlayer_accepts _ _ _ H). cbn [fst snd GameRoom.players GameRoom.set_players].
    split; [reflexivity|].
    exists (newPlayer playerId playerData r). split; [apply get_set_same|].
    repeat split.
  - intros roomId now l n p Hnd Hn Hnth.
    destruct (joined_joins l (constructor roomId now) n p) as (pid & pd & _ & ->);
      try assumption; try reflexivity.
    + intros k _ [].
    + cbn. lia.
    + cbn [JSMap.size GameRoom.players constructor JSMap.empty List.length].
      rewrite Nat.add_0_r. repeat split.
Qed.

(** Six joins in a row: the fourth joiner is on team 2, at [x] = 924 and
    [y] = 220. *)
Lemma team_by_players_present_witness :
  exists p,
    nth_error
      (joined (joins [("s1", PlayerData.mk "Ann"); ("s2", PlayerData.mk "Bob");
                      ("s3", PlayerData.mk "Cat"); ("s4", PlayerData.mk "Dan");
                      ("s5", PlayerData.mk "Eve"); ("s6", PlayerData.mk "Fay")])
              (constructor "room" 0)) 3 = Some p /\
    Player.team p = team2 /\ Player.x p = 924 /\ Player.y p = 220.
Proof.
  set (l := [("s1", PlayerData.mk "Ann"); ("s2", PlayerData.mk "Bob");
             ("s3", PlayerData.mk "Cat"); ("s4", PlayerData.mk "Dan");
             ("s5", PlayerData.mk "Eve"); ("s6", PlayerData.mk "Fay")]).
  assert (Hnd : NoDup (map fst l)).
  { cbn. repeat constructor; cbn; intuition discriminate. }
  eexists. split; [reflexivity|].
  destruct (proj2 team_by_players_present "room" 0%Z l 3%nat _ Hnd ltac:(lia) eq_refl)
    as (A & B & C).
  split; [exact A|]. split.
  - rewrite B. cbn. unfold GAME_WIDTH. lra.
  - rewrite C. cbn. unfold CENTER_Y, GAME_HEIGHT. lra.
Defined.

(** ** Possession *)

Section MapEntries.
Context {V : Type}.
Implicit Types (m : JSMap.t V) (k : string) (v : V).

Lemma In_keys k v m : In (k, v) m -> In k (JSMap.keys m).
Proof. intros H. change k with (fst (k, v)). now apply in_map. Qed.


Lemma has_set k k' v m : JSMap.has k' m = true -> JSMap.has k' (JSMap.set k v m) = true.
Proof.
  unfold JSMap.has. destruct (String.eqb_spec k k') as [->|Hne].
  - now rewrite get_set_same.
  - now rewrite get_set_other.
Qed.

Lemma get_delete_other k k' m :
  k <> k' -> JSMap.get k' (JSMap.delete k m) = JSMap.get k' m.
Proof.
  intros Hne. induction m as [|[k0 v0] m IH]; simpl; [reflexivity|].
  destruct (String.eqb_spec k0 k) as [->|Hk]; simpl.
  - destruct (String.eqb_spec k k'); [contradiction | reflexivity].
  - destruct (String.eqb_spec k0 k'); [reflexivity | exact IH].
Qed.

Lemma In_forEach (f : V -> V) k v m :
  In (k, v) (JSMap.forEach f m) -> exists v0, In (k, v0) m /\ v = f v0.
Proof.
  unfold JSMap.forEach. intros H. apply in_map_iff in H as [[k0 v0] [Heq Hin]].
  injection Heq as <- <-. now exists v0.
Qed.
End MapEntries.

Lemma strict_eq_true o s : strict_eq o s = true <-> o = Some s.
Proof.
  destruct o as [s'|]; simpl; [|split; discriminate].
  destruct (String.eqb_spec s' s) as [->|Hne]; split; try reflexivity; try discriminate.
  intros H. injection H as ->. contradiction.
Qed.

Lemma pickup_owned b ps : truthy (Ball.owner b) = true -> pickup b ps = (b, ps).
Proof.
  intros H. induction ps as [|[k p] ps IH]; simpl; [reflexivity|].
  rewrite H. simpl. now rewrite IH.
Qed.












(** ** Deciding the tests on concrete numbers *)

Lemma js_lt_true a b : a < b -> js_lt a b = true.
Proof. intros H. unfold js_lt. destruct (Rlt_dec a b); [reflexivity | contradiction]. Qed.

Lemma js_lt_false a b : b <= a -> js_lt a b = false.
Proof. intros H. unfold js_lt. destruct (Rlt_dec a b); [lra | reflexivity]. Qed.

Lemma js_gt_true a b : b < a -> js_gt a b = true.
Proof. intros H. unfold js_gt. destruct (Rlt_dec b a); [reflexivity | contradiction]. Qed.

Lemma js_gt_false a b : a <= b -> js_gt a b = false.
Proof. intros H. unfold js_gt. destruct (Rlt_dec b a); [lra | reflexivity]. Qed.

Lemma sqrt_below a c : 0 <= a -> 0 < c -> a < c * c -> sqrt a < c.
Proof.
  intros Ha Hc H. rewrite <- (sqrt_square c) by lra.
  apply sqrt_lt_1_alt. lra.
Qed.

Lemma sqrt_above a c : 0 <= c -> c * c <= a -> c <= sqrt a.
Proof.
  intros Hc H. rewrite <- (sqrt_square c) at 1 by lra.
  apply sqrt_le_1_alt. exact H.
Qed.

Lemma clamp_inside hi v : 0 <= v <= hi -> Rmax 0 (Rmin hi v) = v.
Proof. intros H. rewrite Rmin_right by lra. apply Rmax_right. lra. Qed.

Ltac consts :=
  unfold BASKET_X, BASKET_Y, CENTER_X, CENTER_Y, GAME_WIDTH, GAME_HEIGHT,
    BALL_SPEED, BALL_RADIUS in *.

Ltac ball_fields :=
  unfold Ball.set_x, Ball.set_y, Ball.set_vx, Ball.set_vy, Ball.set_owner,
    Ball.set_inBasket;
  cbn [Ball.x Ball.y Ball.vx Ball.vy Ball.owner Ball.inBasket].

(** A ball whose edge is inside the four walls passes them unchanged. *)
Lemma wallCollision_inside b :
  BALL_RADIUS <= Ball.x b <= GAME_WIDTH - BALL_RADIUS ->
  BALL_RADIUS <= Ball.y b <= GAME_HEIGHT - BALL_RADIUS ->
  wallCollision b = b.
Proof.
  intros Hx Hy. unfold wallCollision.
  rewrite (js_lt_false (Ball.x b - BALL_RADIUS) 0) by lra.
  rewrite (js_gt_false (Ball.x b + BALL_RADIUS) GAME_WIDTH) by lra.
  rewrite (js_lt_false (Ball.y b - BALL_RADIUS) 0) by lra.
  rewrite (js_gt_false (Ball.y b + BALL_RADIUS) GAME_HEIGHT) by lra.
  reflexivity.
Qed.

Lemma ready_room_flight :
  flight 1016 ready_room = Ball.mk 512 300 0 (784 / 10000) None false.
Proof.
  unfold flight. rewrite wallCollision_inside.
  - unfold applyPhysics, timeDelta. cbn. ball_fields. consts. f_equal; lra.
  - cbn. consts. lra.
  - cbn. consts. lra.
Qed.


Lemma run_app ops1 ops2 r : run (ops1 ++ ops2)%list r = run ops2 (run ops1 r).
Proof. unfold run. apply fold_left_app. Qed.

Lemma run_cons op ops r : run (op :: ops) r = run ops (step op r).
Proof. reflexivity. Qed.

Lemma run_nil r : run [] r = r.
Proof. reflexivity. Qed.

Lemma step_updateBall now1 now2 r :
  step (OpUpdateBall now1 now2) r = updateBall now1 now2 r.
Proof. reflexivity. Qed.


Lemma step_throwBall direction power r :
  step (OpThrowBall direction power) r = throwBall direction power r.
Proof. reflexivity. Qed.

Lemma ready_room_eq :
  run [OpAddPlayer "s1" (PlayerData.mk "Ann"); OpAddPlayer "s2" (PlayerData.mk "Bob");
       OpUpdatePlayerPosition "s1" 500 290 0 0; OpStartGame 1000 1000]
      (constructor "room" 0) = ready_room.
Proof. reflexivity. Qed.








(** ** Walls *)

Ltac split_test :=
  match goal with
  | |- context [js_lt ?a ?b] =>
      lazymatch a with
      | context [js_lt] => fail
      | context [js_gt] => fail
      | _ => idtac
      end;
      destruct (Rlt_dec a b);
      [rewrite (js_lt_true a b) by assumption | rewrite (js_lt_false a b) by lra]
  | |- context [js_gt ?a ?b] =>
      lazymatch a with
      | context [js_lt] => fail
      | context [js_gt] => fail
      | _ => idtac
      end;
      destruct (Rlt_dec b a);
      [rewrite (js_gt_true a b) by assumption | rewrite (js_gt_false a b) by lra]
  end;
  ball_fields.

Lemma wallCollision_passes b : wallCollision b = endWalls (sideWalls b).
Proof. reflexivity. Qed.

Lemma sideWalls_spec b :
  let b' := sideWalls b in
  Ball.owner b' = Ball.owner b /\ Ball.inBasket b' = Ball.inBasket b /\
  Ball.y b' = Ball.y b /\ Ball.vy b' = Ball.vy b /\
  (Ball.x b - BALL_RADIUS < 0 ->
   Ball.x b' = BALL_RADIUS /\ Ball.vx b' = Rabs (Ball.vx b)) /\
  (Ball.x b + BALL_RADIUS > GAME_WIDTH ->
   Ball.x b' = GAME_WIDTH - BALL_RADIUS /\ Ball.vx b' = - Rabs (Ball.vx b)) /\
  (~ Ball.x b - BALL_RADIUS < 0 -> ~ Ball.x b + BALL_RADIUS > GAME_WIDTH -> b' = b).
Proof.
  unfold sideWalls. cbv zeta. consts.
  repeat split_test; repeat split; intros; try reflexivity; try lra.
Qed.

Lemma endWalls_spec b :
  let b' := endWalls b in
  Ball.owner b' = Ball.owner b /\ Ball.inBasket b' = Ball.inBasket b /\
  Ball.x b' = Ball.x b /\ Ball.vx b' = Ball.vx b /\
  (Ball.y b - BALL_RADIUS < 0 ->
   Ball.y b' = BALL_RADIUS /\ Ball.vy b' = Rabs (Ball.vy b)) /\
  (Ball.y b + BALL_RADIUS > GAME_HEIGHT ->
   Ball.y b' = GAME_HEIGHT - BALL_RADIUS /\ Ball.vy b' = - Rabs (Ball.vy b) * 0.7) /\
  (~ Ball.y b - BALL_RADIUS < 0 -> ~ Ball.y b + BALL_RADIUS > GAME_HEIGHT -> b' = b).
Proof.
  unfold endWalls. cbv zeta. consts.
  repeat split_test; repeat split; intros; try reflexivity; try lra.
Qed.

(** The four walls, one by one, on the ball that reaches them. *)
Lemma wallCollision_spec b :
  let b' := wallCollision b in
  Ball.owner b' = Ball.owner b /\ Ball.inBasket b' = Ball.inBasket b /\
  (Ball.x b - BALL_RADIUS < 0 ->
   Ball.x b' = BALL_RADIUS /\ Ball.vx b' = Rabs (Ball.vx b)) /\
  (Ball.x b + BALL_RADIUS > GAME_WIDTH ->
   Ball.x b' = GAME_WIDTH - BALL_RADIUS /\ Ball.vx b' = - Rabs (Ball.vx b)) /\
  (Ball.y b - BALL_RADIUS < 0 ->
   Ball.y b' = BALL_RADIUS /\ Ball.vy b' = Rabs (Ball.vy b)) /\
  (Ball.y b + BALL_RADIUS > GAME_HEIGHT ->
   Ball.y b' = GAME_HEIGHT - BALL_RADIUS /\ Ball.vy b' = - Rabs (Ball.vy b) * 0.7) /\
  (~ Ball.x b - BALL_RADIUS < 0 -> ~ Ball.x b + BALL_RADIUS > GAME_WIDTH ->
   Ball.x b' = Ball.x b /\ Ball.vx b' = Ball.vx b) /\
  (~ Ball.y b - BALL_RADIUS < 0 -> ~ Ball.y b + BALL_RADIUS > GAME_HEIGHT ->
   Ball.y b' = Ball.y b /\ Ball.vy b' = Ball.vy b).
Proof.
  cbv zeta. rewrite wallCollision_passes.
  destruct (sideWalls_spec b) as (So & Si & Sy & Svy & Sl & Sr & Sn).
  destruct (endWalls_spec (sideWalls b)) as (Eo & Ei & Ex & Evx & Et & Eb & En).
  rewrite Eo, Ei, Ex, Evx, So, Si.
  rewrite Sy, Svy in Et. rewrite Sy, Svy in Eb. rewrite Sy in En.
  split; [reflexivity|]. split; [reflexivity|]. split; [exact Sl|]. split; [exact Sr|].
  split; [exact Et|]. split; [exact Eb|]. split.
  - intros H1 H2. rewrite (Sn H1 H2). split; reflexivity.
  - intros H1 H2. rewrite (En H1 H2). split; [exact Sy | exact Svy].
Qed.

Lemma pickup_ball b ps :
  let b' := fst (pickup b ps) in
  Ball.x b' = Ball.x b /\ Ball.y b' = Ball.y b /\
  Ball.vx b' = Ball.vx b /\ Ball.vy b' = Ball.vy b /\
  Ball.inBasket b' = Ball.inBasket b.
Proof.
  revert b. induction ps as [|[k p] ps IH]; intros b; cbn; [repeat split|].
  destruct (negb (truthy (Ball.owner b))); [destruct (js_lt _ 35)|];
    match goal with |- context [pickup ?b0 ps] =>
      specialize (IH b0); destruct (pickup b0 ps) end;
    cbn in *; exact IH.
Qed.

(** A ball put back on a wall is out of reach of the basket. *)
Lemma wall_hit_far b :
  Ball.x b - BALL_RADIUS < 0 \/ Ball.x b + BALL_RADIUS > GAME_WIDTH \/
  Ball.y b - BALL_RADIUS < 0 \/ Ball.y b + BALL_RADIUS > GAME_HEIGHT ->
  js_lt (distToBasket (wallCollision b)) 30 = false.
Proof.
  intros H. apply js_lt_false, sqrt_above; [lra|].
  destruct (wallCollision_spec b) as (_ & _ & Hl & Hr & Ht & Hb & _).
  pose proof (pow2_ge_0 (Ball.x (wallCollision b) - BASKET_X)).
  pose proof (pow2_ge_0 (Ball.y (wallCollision b) - BASKET_Y)).
  destruct H as [H|[H|[H|H]]];
    [destruct (Hl H) as [E _] | destruct (Hr H) as [E _]
     | destruct (Ht H) as [E _] | destruct (Hb H) as [E _]];
    rewrite E in *; consts; lra.
Qed.

Lemma updateBall_flight now1 now2 r :
  GameRoom.gameState r = playing ->
  truthy (Ball.owner (GameRoom.ball r)) = false ->
  js_lt (distToBasket (flight now1 r)) 30 = false ->
  let b' := GameRoom.ball (updateBall now1 now2 r) in
  Ball.x b' = Ball.x (flight now1 r) /\ Ball.y b' = Ball.y (flight now1 r) /\
  Ball.vx b' = Ball.vx (flight now1 r) /\ Ball.vy b' = Ball.vy (flight now1 r).
Proof.
  intros Hs Ho Hfar. cbv zeta. rewrite (updateBall_free _ _ _ Hs Ho). cbv zeta.
  rewrite Hfar. unfold playerCollision.
  cbn [GameRoom.ball GameRoom.players GameRoom.set_ball GameRoom.set_lastUpdate].
  pose proof (pickup_ball (flight now1 r) (GameRoom.players r)) as H.
  destruct (pickup _ _). cbn in H |- *. tauto.
Qed.

(** C9.  In a physics step of a room in the playing phase with a free ball,
    let [b] be the ball after the integration, the gravity and the friction.
    When the edge of [b] is beyond the left, right, top or bottom boundary,
    the step ends with the ball put back on that boundary and the velocity
    component turned inward: [|vx|] at the left, [-|vx|] at the right, [|vy|]
    at the top, and [-|vy| * 0.7] at the bottom, the only wall with a
    restitution factor.  In particular a free ball at [x] = -5 with [vx] = -3
    ends the step, whatever the elapsed time (not negative), at [x] =
    [BALL_RADIUS] with [vx] > 0. *)
Theorem wall_bounce (now1 now2 : Z) (r : GameRoom.t) :
  GameRoom.gameState r = playing ->
  truthy (Ball.owner (GameRoom.ball r)) = false ->
  let b := applyPhysics (timeDelta now1 r) (GameRoom.ball r) in
  let b' := GameRoom.ball (updateBall now1 now2 r) in
  (Ball.x b - BALL_RADIUS < 0 ->
   Ball.x b' = BALL_RADIUS /\ Ball.vx b' = Rabs (Ball.vx b) /\ 0 <= Ball.vx b') /\
  (Ball.x b + BALL_RADIUS > GAME_WIDTH ->
   Ball.x b' = GAME_WIDTH - BALL_RADIUS /\ Ball.vx b' = - Rabs (Ball.vx b) /\
   Ball.vx b' <= 0) /\
  (Ball.y b - BALL_RADIUS < 0 ->
   Ball.y b' = BALL_RADIUS /\ Ball.vy b' = Rabs (Ball.vy b) /\ 0 <= Ball.vy b') /\
  (Ball.y b + BALL_RADIUS > GAME_HEIGHT ->
   Ball.y b' = GAME_HEIGHT - BALL_RADIUS /\ Ball.vy b' = - Rabs (Ball.vy b) * 0.7 /\
   Ball.vy b' <= 0) /\
  (Ball.x (GameRoom.ball r) = -5 -> Ball.vx (GameRoom.ball r) = -3 ->
   (GameRoom.lastUpdate r <= now1)%Z ->
   Ball.x b' = BALL_RADIUS /\ Ball.vx b' > 0).
Proof.
  intros Hs Ho b b'.
  assert (Hhit : Ball.x b - BALL_RADIUS < 0 \/ Ball.x b + BALL_RADIUS > GAME_WIDTH \/
                 Ball.y b - BALL_RADIUS < 0 \/ Ball.y b + BALL_RADIUS > GAME_HEIGHT ->
                 Ball.x b' = Ball.x (wallCollision b) /\ Ball.y b' = Ball.y (wallCollision b) /\
                 Ball.vx b' = Ball.vx (wallCollision b) /\
                 Ball.vy b' = Ball.vy (wallCollision b)).
  { intros H. apply (updateBall_flight now1 now2 r Hs Ho). now apply wall_hit_far. }
  destruct (wallCollision_spec b) as (_ & _ & Hl & Hr & Ht & Hb & _).
  pose proof (Rabs_pos (Ball.vx b)) as Hax. pose proof (Rabs_pos (Ball.vy b)) as Hay.
  split; [|split; [|split; [|split]]].
  - intros H. destruct (Hhit (or_introl H)) as (Ex & _ & Evx & _).
    destruct (Hl H) as [E1 E2]. rewrite Ex, Evx, E1, E2. auto.
  - intros H. destruct (Hhit (or_intror (or_introl H))) as (Ex & _ & Evx & _).
    destruct (Hr H) as [E1 E2]. rewrite Ex, Evx, E1, E2. repeat split; lra.
  - intros H. destruct (Hhit (or_intror (or_intror (or_introl H)))) as (_ & Ey & _ & Evy).
    destruct (Ht H) as [E1 E2]. rewrite Ey, Evy, E1, E2. auto.
  - intros H. destruct (Hhit (or_intror (or_intror (or_intror H)))) as (_ & Ey & _ & Evy).
    destruct (Hb H) as [E1 E2]. rewrite Ey, Evy, E1, E2. repeat split; lra.
  - intros Hx Hvx Hdt.
    assert (Hd : 0 <= timeDelta now1 r).
    { unfold timeDelta. apply IZR_le in Hdt. rewrite minus_IZR.
      apply Rmult_le_pos; lra. }
    assert (H : Ball.x b - BALL_RADIUS < 0).
    { unfold b, applyPhysics. ball_fields. rewrite Hx, Hvx. consts. nra. }
    destruct (Hhit (or_introl H)) as (Ex & _ & Evx & _).
    destruct (Hl H) as [E1 E2]. rewrite Ex, Evx, E1, E2. split; [reflexivity|].
    unfold b, applyPhysics. ball_fields. rewrite Hvx.
    apply Rlt_gt, Rabs_pos_lt. lra.
Qed.

(** The stray ball, a sixtieth of a second later. *)
Lemma wall_bounce_witness :
  Ball.x (GameRoom.ball (updateBall 1016 1016 stray_room)) = BALL_RADIUS /\
  Ball.vx (GameRoom.ball (updateBall 1016 1016 stray_room)) > 0.
Proof.
  apply (proj2 (proj2 (proj2 (proj2
           (wall_bounce 1016 1016 stray_room eq_refl eq_refl))))).
  - reflexivity.
  - reflexivity.
  - cbn. lia.
Defined.

(** ** Scoring *)

Ltac room_fields :=
  unfold GameRoom.set_players, GameRoom.set_ball, GameRoom.set_score,
    GameRoom.set_gameState, GameRoom.set_lastUpdate, GameRoom.set_gameStartTime;
  cbn [GameRoom.id GameRoom.players GameRoom.ball GameRoom.score GameRoom.gameState
       GameRoom.lastUpdate GameRoom.gameStartTime GameRoom.maxPlayers].

Lemma ready_room_caught : updateBall 1016 1016 ready_room = caught_room.
Proof.
  rewrite updateBall_free by reflexivity.
  rewrite ready_room_flight. cbv zeta.
  rewrite js_lt_false
    by (apply sqrt_above; [lra|]; unfold distToBasket; cbn; consts; lra).
  unfold playerCollision. room_fields.
  unfold ready_room. cbn.
  rewrite !clamp_inside by (consts; lra).
  rewrite js_lt_true by (apply sqrt_below; [nra | lra | lra]).
  cbn. unfold caught_room. consts.
  replace (600 / 2 + 1 * 80 - 80) with 300 by lra.
  reflexivity.
Qed.

Lemma caught_room_held :
  updateBall 1032 1032 (updatePlayerPosition "s1" 909 135 0 0 caught_room) = held_room.
Proof.
  unfold updatePlayerPosition, caught_room. cbn.
  rewrite !clamp_inside by (consts; lra).
  unfold updateBall. cbn. 
  replace (909 + 15) with 924 by lra. replace (135 + 15) with 150 by lra.
  reflexivity.
Qed.

Lemma held_room_reachable :
  run [OpAddPlayer "s1" (PlayerData.mk "Ann"); OpAddPlayer "s2" (PlayerData.mk "Bob");
       OpUpdatePlayerPosition "s1" 500 290 0 0; OpStartGame 1000 1000;
       OpUpdateBall 1016 1016; OpUpdatePlayerPosition "s1" 909 135 0 0;
       OpUpdateBall 1032 1032]
      (constructor "room" 0) = held_room.
Proof.
  change (run ([OpAddPlayer "s1" (PlayerData.mk "Ann"); OpAddPlayer "s2" (PlayerData.mk "Bob");
                OpUpdatePlayerPosition "s1" 500 290 0 0; OpStartGame 1000 1000] ++
               [OpUpdateBall 1016 1016; OpUpdatePlayerPosition "s1" 909 135 0 0;
                OpUpdateBall 1032 1032])%list
              (constructor "room" 0) = held_room).
  rewrite run_app, ready_room_eq.
  rewrite (run_cons (OpUpdateBall 1016 1016)), step_updateBall, ready_room_caught.
  rewrite (run_cons (OpUpdatePlayerPosition _ _ _ _ _)), (run_cons (OpUpdateBall _ _)), run_nil.
  rewrite step_updateBall. exact caught_room_held.
Qed.

Lemma pickup_scores b ps :
  map (fun kp => (fst kp, Player.score (snd kp))) (snd (pickup b ps)) =
  map (fun kp => (fst kp, Player.score (snd kp))) ps.
Proof.
  revert b. induction ps as [|[k p] ps IH]; intros b; cbn; [reflexivity|].
  destruct (negb (truthy (Ball.owner b))); [destruct (js_lt _ 35)|];
    match goal with |- context [pickup ?b0 ps] =>
      specialize (IH b0); destruct (pickup b0 ps) end;
    cbn in *; now rewrite IH.
Qed.

Lemma playerCollision_scores r :
  GameRoom.score (playerCollision r) = GameRoom.score r /\
  personal_scores (playerCollision r) = personal_scores r.
Proof.
  unfold playerCollision, personal_scores.
  pose proof (pickup_scores (GameRoom.ball r) (GameRoom.players r)) as H.
  destruct (pickup _ _). split; [reflexivity | exact H].
Qed.

Lemma resetBall_scores r :
  GameRoom.score (resetBall r) = GameRoom.score r /\
  personal_scores (resetBall r) = personal_scores r.
Proof.
  split; [reflexivity|]. unfold personal_scores, resetBall, JSMap.forEach. cbn.
  rewrite map_map. reflexivity.
Qed.

(** No physics step gives a point to a team or to a player. *)
Lemma updateBall_scores now1 now2 r :
  GameRoom.score (updateBall now1 now2 r) = GameRoom.score r /\
  personal_scores (updateBall now1 now2 r) = personal_scores r.
Proof.
  destruct (GameState_eqb (GameRoom.gameState r) playing) eqn:Hs.
  - assert (Hp : GameRoom.gameState r = playing)
      by (destruct (GameRoom.gameState r); try discriminate; reflexivity).
    destruct (truthy (Ball.owner (GameRoom.ball r))) eqn:Ho.
    + unfold updateBall. rewrite Hs. cbn [negb].
      cbn [GameRoom.ball GameRoom.set_lastUpdate]. rewrite Ho.
      destruct (Ball.owner (GameRoom.ball r)) as [oid|]; [|discriminate].
      cbn [GameRoom.players].
      destruct (JSMap.get oid _);
        match goal with |- context [playerCollision ?x] =>
          destruct (playerCollision_scores x) as [-> ->] end; split; reflexivity.
    + rewrite (updateBall_free _ _ _ Hp Ho). cbv zeta.
      match goal with |- context [playerCollision ?x] =>
        destruct (playerCollision_scores x) as [-> ->] end.
      destruct (js_lt _ 30); [|split; reflexivity].
      match goal with |- context [resetBall ?x] =>
        destruct (resetBall_scores x) as [-> ->] end.
      split; reflexivity.
  - rewrite updateBall_not_playing; [split; reflexivity|].
    intros E. rewrite E in Hs. discriminate.
Qed.

Lemma held_room_shot : throwBall 0 100 held_room = shot_room.
Proof.
  unfold throwBall, held_room. cbn. rewrite cos_0, sin_0, Rmin_left by lra.
  replace (1 * (100 / 100)) with 1 by lra. replace (0 * (100 / 100)) with 0 by lra.
  reflexivity.
Qed.

Lemma shot_room_flight :
  flight 1048 shot_room = Ball.mk (924 + 112 / 1000) 150 (98 / 100) (784 / 10000) None false.
Proof.
  unfold flight. rewrite wallCollision_inside.
  - unfold applyPhysics, timeDelta. cbn. ball_fields. consts. f_equal; lra.
  - unfold applyPhysics, timeDelta. cbn. ball_fields. consts. lra.
  - unfold applyPhysics, timeDelta. cbn. ball_fields. consts. lra.
Qed.

Lemma shot_room_in_basket : distToBasket (flight 1048 shot_room) < 30.
Proof.
  rewrite shot_room_flight. unfold distToBasket. cbn. consts.
  apply sqrt_below; [apply Rplus_le_le_0_compat; apply pow2_ge_0 | lra | lra].
Qed.

Lemma shot_room_restart : updateBall 1048 1048 shot_room = restart_room.
Proof.
  rewrite updateBall_free by reflexivity. cbv zeta.
  rewrite (js_lt_true _ _ shot_room_in_basket).
  unfold playerCollision, resetBall. room_fields.
  unfold shot_room. cbn.
  rewrite js_lt_false by (apply sqrt_above; [lra|]; consts; nra).
  rewrite js_lt_false by (apply sqrt_above; [lra|]; consts; nra).
  reflexivity.
Qed.

(** C1.  ["s1"], on team 1, holds the ball under the basket ([held_room], a
    state the room reaches from its creation) and throws it with direction 0
    and power 100.  In the next physics step the free ball is within 30 units
    of the basket: the ball is reset to mid-field with no owner and no
    [hasBall] flag, [inBasket] is false again, and the score is still 0 to 0,
    as is the personal score of ["s1"].  No physics step at all changes the
    score of a team or of a player: [updateBall] tests the basket only when
    [ball.owner] is falsy, and hands that falsy owner to [scorePoint]. *)
Theorem owned_shot_scores_nothing :
  (forall now1 now2 r,
      GameRoom.score (updateBall now1 now2 r) = GameRoom.score r /\
      personal_scores (updateBall now1 now2 r) = personal_scores r) /\
  run [OpAddPlayer "s1" (PlayerData.mk "Ann"); OpAddPlayer "s2" (PlayerData.mk "Bob");
       OpUpdatePlayerPosition "s1" 500 290 0 0; OpStartGame 1000 1000;
       OpUpdateBall 1016 1016; OpUpdatePlayerPosition "s1" 909 135 0 0;
       OpUpdateBall 1032 1032]
      (constructor "room" 0) = held_room /\
  distToBasket (flight 1048 (throwBall 0 100 held_room)) < 30 /\
  updateBall 1048 1048 (throwBall 0 100 held_room) = restart_room /\
  GameRoom.score restart_room = Score.mk 0 0 /\
  personal_scores restart_room = [("s1", 0%Z); ("s2", 0%Z)].
Proof.
  split; [exact updateBall_scores|]. split; [exact held_room_reachable|].
  rewrite held_room_shot.
  split; [exact shot_room_in_basket|]. split; [exact shot_room_restart|].
  split; reflexivity.
Qed.

(** ** The game loop *)

(** C5.  After [start-game] the room is playing and has its interval.  After
    [pause-game], one period of the interval (which finds the room paused,
    and clears and forgets itself) and [resume-game], the room is in the
    playing phase again but has no interval: [resume-game], unlike
    [start-game], does not call [startGameLoop].  From then on a period runs
    no physics step and sends no [game-update]: the server does not change. *)
Theorem resume_does_not_restart_loop :
  loop_while_playing started /\
  JSMap.has "room" (Server.gameLoops started) = true /\
  (exists room,
      JSMap.get "room" (Server.gameRooms paused_and_resumed) = Some room /\
      GameRoom.gameState room = playing) /\
  JSMap.has "room" (Server.gameLoops paused_and_resumed) = false /\
  ~ loop_while_playing paused_and_resumed /\
  (forall now1 now2, tick "room" now1 now2 paused_and_resumed = paused_and_resumed).
Proof.
  assert (Hhas : JSMap.has "room" (Server.gameLoops paused_and_resumed) = false)
    by reflexivity.
  split; [|split; [|split; [|split; [|split]]]].
  - intros roomId room Hget _.
    assert (Hloops : Server.gameLoops started = [("room", tt)]) by reflexivity.
    assert (Hrooms : exists room0, Server.gameRooms started = [("room", room0)])
      by (eexists; reflexivity).
    destruct Hrooms as [room0 Hrooms]. rewrite Hrooms in Hget. rewrite Hloops.
    unfold JSMap.has, JSMap.get in *.
    destruct (String.eqb "room" roomId); [reflexivity | discriminate Hget].
  - reflexivity.
  - eexists. split; reflexivity.
  - exact Hhas.
  - intros H. specialize (H "room" _ eq_refl eq_refl). rewrite Hhas in H. discriminate.
  - intros now1 now2. unfold tick. rewrite Hhas. reflexivity.
Qed.

(** * Further properties of the room *)

(** ** Moving a player *)

Lemma In_set_any {V : Type} (k : string) (v : V) (kv : string * V) (m : JSMap.t V) :
  In kv (JSMap.set k v m) -> kv = (k, v) \/ In kv m.
Proof.
  induction m as [|[k0 v0] m IH]; simpl.
  - intros [<-|[]]. now left.
  - destruct (String.eqb k0 k); simpl.
    + intros [<-|H]; [now left | right; now right].
    + intros [<-|H]; [right; now left|].
      destruct (IH H) as [->|H']; [now left | right; now right].
Qed.






(** ** Where the players stand *)

Lemma pickup_entries b ps k p' :
  In (k, p') (snd (pickup b ps)) ->
  exists p h, In (k, p) ps /\ p' = Player.set_hasBall h p.
Proof.
  revert b. induction ps as [|[k0 p0] ps IH]; intros b; cbn; [tauto|].
  assert (Hsame : forall p : Player.t, p = Player.set_hasBall (Player.hasBall p) p)
    by (intros []; reflexivity).
  destruct (negb (truthy (Ball.owner b))); [destruct (js_lt _ 35)|];
    match goal with |- context [pickup ?b0 ps] =>
      specialize (IH b0); destruct (pickup b0 ps) end;
    cbn in *; intros [Heq|Hin];
    try (destruct (IH Hin) as (p & h & Hp & ->); exists p, h; tauto);
    injection Heq as <- <-.
  - exists p0, true. tauto.
  - exists p0, (Player.hasBall p0). split; [now left | apply Hsame].
  - exists p0, (Player.hasBall p0). split; [now left | apply Hsame].
Qed.

(** A physics step keeps every player as it is, up to [hasBall]. *)
Lemma updateBall_players now1 now2 r k p' :
  In (k, p') (GameRoom.players (updateBall now1 now2 r)) ->
  exists p h, In (k, p) (GameRoom.players r) /\ p' = Player.set_hasBall h p.
Proof.
  assert (Hsame : forall p : Player.t, p = Player.set_hasBall (Player.hasBall p) p)
    by (intros []; reflexivity).
  assert (Hplain : In (k, p') (GameRoom.players r) ->
                   exists p h, In (k, p) (GameRoom.players r) /\ p' = Player.set_hasBall h p)
    by (intros H; exists p', (Player.hasBall p'); split; [exact H | apply Hsame]).
  destruct (GameState_eqb (GameRoom.gameState r) playing) eqn:Hs.
  - assert (Hp : GameRoom.gameState r = playing)
      by (destruct (GameRoom.gameState r); try discriminate; reflexivity).
    destruct (truthy (Ball.owner (GameRoom.ball r))) eqn:Ho.
    + unfold updateBall, playerCollision. rewrite Hs. cbn [negb].
      cbn [GameRoom.ball GameRoom.set_lastUpdate]. rewrite Ho.
      destruct (Ball.owner (GameRoom.ball r)) as [oid|] eqn:Eo; [|discriminate].
      cbn [GameRoom.players].
      destruct (JSMap.get oid _); cbn; rewrite pickup_owned by (cbn; now rewrite ?Eo);
        exact Hplain.
    + rewrite (updateBall_free _ _ _ Hp Ho). cbv zeta. unfold playerCollision.
      destruct (js_lt _ 30).
      * unfold resetBall.
        cbn [GameRoom.players GameRoom.ball GameRoom.set_players GameRoom.set_ball
             GameRoom.set_lastUpdate].
        match goal with |- context [pickup ?b0 ?ps0] =>
          pose proof (pickup_entries b0 ps0 k p') as H; destruct (pickup b0 ps0) end.
        cbn in H |- *. intros Hin. destruct (H Hin) as (p & h & Hp' & ->).
        apply In_forEach in Hp' as (p0 & Hp0 & ->).
        exists p0, h. split; [exact Hp0 | reflexivity].
      * cbn [GameRoom.players GameRoom.ball GameRoom.set_players GameRoom.set_ball
             GameRoom.set_lastUpdate].
        match goal with |- context [pickup ?b0 ?ps0] =>
          pose proof (pickup_entries b0 ps0 k p') as H; destruct (pickup b0 ps0) end.
        cbn in H |- *. exact H.
  - rewrite updateBall_not_playing; [exact Hplain|].
    intros E. rewrite E in Hs. discriminate.
Qed.





(** ** Leaving *)

Lemma step_keys_NoDup op r :
  NoDup (JSMap.keys (GameRoom.players r)) ->
  NoDup (JSMap.keys (GameRoom.players (step op r))).
Proof.
  intros H. destruct op; cbn [step]; try exact H.
  - unfold addPlayer. destruct (_ <=? _)%nat; [exact H|]. cbn.
    now apply NoDup_keys_set.
  - unfold removePlayer. cbn. destruct (strict_eq _ _); cbn; now apply NoDup_keys_delete.
  - now rewrite updatePlayerPosition_keys.
  - now rewrite throwBall_keys.
  - unfold startGame. destruct (2 <=? _)%nat; exact H.
  - now rewrite updateBall_keys.
Qed.

Lemma run_keys_NoDup ops : forall r,
  NoDup (JSMap.keys (GameRoom.players r)) ->
  NoDup (JSMap.keys (GameRoom.players (run ops r))).
Proof.
  induction ops as [|op ops IH]; intros r H; [exact H|].
  rewrite run_cons. apply IH. now apply step_keys_NoDup.
Qed.

Lemma get_delete_same {V : Type} (k : string) (m : JSMap.t V) :
  NoDup (JSMap.keys m) -> JSMap.get k (JSMap.delete k m) = None.
Proof. intros H. apply get_None_keys. now apply delete_not_key. Qed.

Lemma size_delete {V : Type} (k : string) (m : JSMap.t V) :
  JSMap.size (JSMap.delete k m) =
  if JSMap.has k m then (JSMap.size m - 1)%nat else JSMap.size m.
Proof.
  unfold JSMap.has, JSMap.size. induction m as [|[k0 v0] m IH]; simpl; [reflexivity|].
  destruct (String.eqb k0 k); simpl; [lia|].
  rewrite IH. destruct (JSMap.get k m) eqn:E; [|reflexivity].
  destruct m; [discriminate E | simpl; lia].
Qed.

Lemma delete_appended {V : Type} (k : string) (v : V) (m : JSMap.t V) :
  JSMap.get k m = None -> JSMap.delete k (m ++ [(k, v)])%list = m.
Proof.
  induction m as [|[k0 v0] m IH]; simpl.
  - now rewrite String.eqb_refl.
  - destruct (String.eqb k0 k); [discriminate|]. intros H. now rewrite IH.
Qed.

(** X3.  In a room reached from its creation, [removePlayer] leaves no entry
    under the id, keeps every other entry, and lowers the number of players
    by one when the id was present and not at all otherwise; it returns
    [true] exactly when the room is then empty; it clears [ball.owner] when
    the id owned the ball and leaves the ball alone otherwise, and it never
    touches the score, the phase or the clock. *)
Theorem removePlayer_removes (roomId : string) (now : Z) (ops : list Op)
    (playerId : string) :
  let r := run ops (constructor roomId now) in
  let r' := snd (removePlayer playerId r) in
  JSMap.get playerId (GameRoom.players r') = None /\
  (forall q, q <> playerId ->
             JSMap.get q (GameRoom.players r') = JSMap.get q (GameRoom.players r)) /\
  JSMap.size (GameRoom.players r') =
    (if JSMap.has playerId (GameRoom.players r)
     then JSMap.size (GameRoom.players r) - 1 else JSMap.size (GameRoom.players r))%nat /\
  (fst (removePlayer playerId r) = true <-> GameRoom.players r' = []) /\
  (Ball.owner (GameRoom.ball r) = Some playerId ->
   GameRoom.ball r' = Ball.set_owner None (GameRoom.ball r)) /\
  (Ball.owner (GameRoom.ball r) <> Some playerId -> GameRoom.ball r' = GameRoom.ball r) /\
  GameRoom.score r' = GameRoom.score r /\
  GameRoom.gameState r' = GameRoom.gameState r /\
  GameRoom.lastUpdate r' = GameRoom.lastUpdate r /\
  GameRoom.gameStartTime r' = GameRoom.gameStartTime r.
Proof.
  intros r r'.
  assert (Hnd : NoDup (JSMap.keys (GameRoom.players r)))
    by (apply run_keys_NoDup; constructor).
  assert (Hps : GameRoom.players r' = JSMap.delete playerId (GameRoom.players r)).
  { unfold r', removePlayer. cbn. now destruct (strict_eq _ _). }
  rewrite Hps.
  split; [now apply get_delete_same|].
  split; [intros q Hq; apply get_delete_other; congruence|].
  split; [apply size_delete|].
  split.
  { unfold removePlayer.
    cbn [fst snd GameRoom.players GameRoom.set_players GameRoom.ball].
    assert (Hsz : forall r0, JSMap.size (GameRoom.players r0) =
                             List.length (GameRoom.players r0)) by reflexivity.
    destruct (strict_eq _ _);
      cbn [fst GameRoom.players GameRoom.set_players GameRoom.set_ball];
      rewrite Nat.eqb_eq; unfold JSMap.size;
      (split; [intros H; now apply length_zero_iff_nil in H | intros ->; reflexivity]). }
  unfold r', removePlayer.
  cbn [fst snd GameRoom.players GameRoom.set_players GameRoom.ball].
  split; [|split].
  - intros Ho. apply strict_eq_true in Ho. rewrite Ho. reflexivity.
  - intros Ho. destruct (strict_eq _ playerId) eqn:E; [|reflexivity].
    apply strict_eq_true in E. contradiction.
  - destruct (strict_eq _ playerId); repeat split.
Qed.

(** The second of two players leaves, then the first: the room is empty only
    after the second removal. *)
Lemma removePlayer_removes_witness :
  fst (removePlayer "s2"
         (run [OpAddPlayer "s1" (PlayerData.mk "Ann"); OpAddPlayer "s2" (PlayerData.mk "Bob")]
              (constructor "room" 0))) = false /\
  (fst (removePlayer "s1"
          (run [OpAddPlayer "s1" (PlayerData.mk "Ann"); OpAddPlayer "s2" (PlayerData.mk "Bob");
                OpRemovePlayer "s2"]
               (constructor "room" 0))) = true <->
   GameRoom.players
     (snd (removePlayer "s1"
             (run [OpAddPlayer "s1" (PlayerData.mk "Ann"); OpAddPlayer "s2" (PlayerData.mk "Bob");
                   OpRemovePlayer "s2"]
                  (constructor "room" 0)))) = []).
Proof.
  split; [reflexivity|].
  exact (proj1 (proj2 (proj2 (proj2
           (removePlayer_removes "room" 0
              [OpAddPlayer "s1" (PlayerData.mk "Ann"); OpAddPlayer "s2" (PlayerData.mk "Bob");
               OpRemovePlayer "s2"] "s1"))))).
Defined.

(** X4.  A join followed by the removal of the same id gives the room back
    as it was, when the room was below capacity, the id was not in it and
    the ball was not owned under that id. *)
Theorem join_then_leave (playerId : string) (playerData : PlayerData.t) (r : GameRoom.t) :
  (JSMap.size (GameRoom.players r) < GameRoom.maxPlayers r)%nat ->
  JSMap.has playerId (GameRoom.players r) = false ->
  Ball.owner (GameRoom.ball r) <> Some playerId ->
  snd (removePlayer playerId (snd (addPlayer playerId playerData r))) = r.
Proof.
  intros Hlt Habs Ho. rewrite (addPlayer_accepts _ _ _ Hlt).
  unfold removePlayer. cbn [snd GameRoom.players GameRoom.set_players GameRoom.ball].
  assert (Hget : JSMap.get playerId (GameRoom.players r) = None).
  { unfold JSMap.has in Habs. now destruct (JSMap.get playerId (GameRoom.players r)). }
  rewrite set_absent, delete_appended by exact Hget.
  destruct (strict_eq _ playerId) eqn:E.
  - apply strict_eq_true in E. contradiction.
  - destruct r; reflexivity.
Qed.

(** A third socket joins a running game of two and leaves again. *)
Lemma join_then_leave_witness :
  snd (removePlayer "s3" (snd (addPlayer "s3" (PlayerData.mk "Cat") held_room))) = held_room.
Proof.
  apply join_then_leave.
  - cbn. lia.
  - reflexivity.
  - discriminate.
Defined.

(** ** Giving points *)

(** X5.  [scorePoint] called with the id of a player of the room adds 2 to
    the score of that player's team and 2 to the player's own score, and
    changes nothing else: the other team, the other players, the ball, the
    phase.  Called with [null], with the empty string or with an id that is
    not in the room, it changes nothing. *)
Theorem scorePoint_awards_two (r : GameRoom.t) :
  scorePoint None r = r /\
  scorePoint (Some EmptyString) r = r /\
  (forall playerId,
      JSMap.get playerId (GameRoom.players r) = None ->
      scorePoint (Some playerId) r = r) /\
  (forall playerId player,
      playerId <> EmptyString ->
      JSMap.get playerId (GameRoom.players r) = Some player ->
      let r' := scorePoint (Some playerId) r in
      GameRoom.score r' =
        match Player.team player with
        | team1 => Score.mk (Score.team1 (GameRoom.score r) + 2)
                            (Score.team2 (GameRoom.score r))
        | team2 => Score.mk (Score.team1 (GameRoom.score r))
                            (Score.team2 (GameRoom.score r) + 2)
        end /\
      JSMap.get playerId (GameRoom.players r') =
        Some (Player.set_score (Player.score player + 2) player) /\
      (forall q, q <> playerId ->
                 JSMap.get q (GameRoom.players r') = JSMap.get q (GameRoom.players r)) /\
      JSMap.keys (GameRoom.players r') = JSMap.keys (GameRoom.players r) /\
      GameRoom.ball r' = GameRoom.ball r /\
      GameRoom.gameState r' = GameRoom.gameState r /\
      GameRoom.lastUpdate r' = GameRoom.lastUpdate r /\
      GameRoom.gameStartTime r' = GameRoom.gameStartTime r).
Proof.
  split; [reflexivity|]. split; [reflexivity|]. split.
  - intros playerId H. unfold scorePoint. destruct (negb _); [reflexivity|].
    now rewrite H.
  - intros playerId player Hne H r'.
    assert (Hkeys : JSMap.keys (GameRoom.players r') = JSMap.keys (GameRoom.players r))
      by apply scorePoint_keys.
    unfold r' in *. unfold scorePoint in *.
    rewrite (truthy_Some _ Hne), H in *. cbn [negb] in *.
    cbn [GameRoom.score GameRoom.players GameRoom.ball GameRoom.gameState
         GameRoom.lastUpdate GameRoom.gameStartTime GameRoom.set_players
         GameRoom.set_score] in *.
    split; [now destruct (Player.team player)|].
    split; [apply get_set_same|].
    split; [intros q Hq; apply get_set_other; congruence|].
    split; [exact Hkeys|]. repeat split.
Qed.

(** ["s1"], on team 1, is given a basket in [held_room]. *)
Lemma scorePoint_awards_two_witness :
  GameRoom.score (scorePoint (Some "s1") held_room) = Score.mk 2 0.
Proof.
  destruct (proj2 (proj2 (proj2 (scorePoint_awards_two held_room))) "s1"
              (Player.mk "s1" "Ann" team1 909 135 0 0 true 0%Z true)
              ltac:(discriminate) eq_refl) as (H & _).
  exact H.
Defined.

(** ** The score over the life of a room *)

Lemma step_score op r : GameRoom.score (step op r) = GameRoom.score r.
Proof.
  destruct op; cbn [step]; try reflexivity.
  - unfold addPlayer. now destruct (_ <=? _)%nat.
  - unfold removePlayer. cbn. now destruct (strict_eq _ _).
  - unfold updatePlayerPosition. now destruct (JSMap.get _ _).
  - unfold throwBall. destruct (truthy _); [|reflexivity].
    destruct (Ball.owner _); [|reflexivity]. now destruct (JSMap.get _ _).
  - unfold startGame. now destruct (2 <=? _)%nat.
  - apply updateBall_scores.
Qed.

Lemma step_personal_scores op r :
  (forall k p, In (k, p) (GameRoom.players r) -> Player.score p = 0%Z) ->
  forall k p, In (k, p) (GameRoom.players (step op r)) -> Player.score p = 0%Z.
Proof.
  intros H k p. destruct op; cbn [step]; try apply H.
  - unfold addPlayer. destruct (_ <=? _)%nat; [apply H|]. cbn.
    intros Hin. apply In_set_any in Hin as [Heq|Hin]; [|now apply (H k)].
    injection Heq as -> ->. reflexivity.
  - unfold removePlayer. cbn. destruct (strict_eq _ _); cbn;
      intros Hin; apply (H k); eapply In_delete; eassumption.
  - unfold updatePlayerPosition.
    destruct (JSMap.get playerId _) as [player|] eqn:E; [|apply H]. cbn.
    intros Hin. apply In_set_any in Hin as [Heq|Hin]; [|now apply (H k)].
    injection Heq as -> ->. cbn. apply get_In in E. exact (H _ _ E).
  - unfold throwBall. destruct (truthy _); [|apply H].
    destruct (Ball.owner _) as [oid|]; [|apply H].
    destruct (JSMap.get oid _) as [owner|] eqn:E; [|apply H]. cbn.
    intros Hin. apply In_set_any in Hin as [Heq|Hin]; [|now apply (H k)].
    injection Heq as -> ->. apply get_In in E. exact (H _ _ E).
  - unfold startGame. destruct (2 <=? _)%nat; apply H.
  - intros Hin. apply updateBall_players in Hin as (p0 & h & Hin & ->).
    exact (H _ _ Hin).
Qed.

(** X6.  Whatever operations a room receives from its creation on (joins,
    removals, moves, throws, starts, pauses, resumes and physics steps, in
    any number and order), its score stays 0 to 0 and the personal score of
    every player stays 0: no operation of the room reaches the additions of
    [scorePoint]. *)
Theorem score_never_moves (roomId : string) (now : Z) (ops : list Op) :
  let r := run ops (constructor roomId now) in
  GameRoom.score r = Score.mk 0 0 /\
  (forall k p, In (k, p) (GameRoom.players r) -> Player.score p = 0%Z).
Proof.
  assert (G : forall r,
             GameRoom.score r = Score.mk 0 0 /\
             (forall k p, In (k, p) (GameRoom.players r) -> Player.score p = 0%Z) ->
             GameRoom.score (run ops r) = Score.mk 0 0 /\
             (forall k p, In (k, p) (GameRoom.players (run ops r)) -> Player.score p = 0%Z)).
  { induction ops as [|op ops IH]; intros r H; [exact H|].
    rewrite run_cons. apply IH. destruct H as [Hs Hp]. split.
    - now rewrite step_score.
    - now apply step_personal_scores. }
  apply G. split; [reflexivity | intros k p []].
Qed.

(** ** Picking the ball up *)

Lemma in_reach_position b b' p p' :
  Ball.x b' = Ball.x b -> Ball.y b' = Ball.y b ->
  Player.x p' = Player.x p -> Player.y p' = Player.y p ->
  in_reach b' p' = in_reach b p.
Proof. intros H1 H2 H3 H4. unfold in_reach. now rewrite H1, H2, H3, H4. Qed.

Lemma find_same_test {A : Type} (f g : A -> bool) (l : list A) :
  (forall a, f a = g a) -> find f l = find g l.
Proof.
  intros H. induction l as [|a l IH]; [reflexivity|].
  cbn. rewrite H, IH. reflexivity.
Qed.

(** The scan of a free ball gives it to the first player in reach, in the
    order of the map. *)
Lemma pickup_first ps : forall b,
  Ball.owner b = None ->
  (forall k p, In (k, p) ps -> Player.id p <> EmptyString) ->
  Ball.owner (fst (pickup b ps)) =
  option_map Player.id (find (in_reach b) (JSMap.values ps)).
Proof.
  induction ps as [|[k p] ps IH]; intros b Hb Hid; [exact Hb|].
  cbn [pickup JSMap.values map snd find]. rewrite Hb. cbn [truthy negb].
  change (js_lt _ 35) with (in_reach b p).
  destruct (in_reach b p).
  - rewrite pickup_owned; [reflexivity|].
    cbn. apply truthy_Some. apply (Hid k p). now left.
  - specialize (IH b Hb (fun k0 p0 H => Hid k0 p0 (or_intror H))).
    destruct (pickup b ps). exact IH.
Qed.

Lemma find_forEach_hasBall b h (ps : JSMap.t Player.t) :
  option_map Player.id
    (find (in_reach b) (JSMap.values (JSMap.forEach (Player.set_hasBall h) ps))) =
  option_map Player.id (find (in_reach b) (JSMap.values ps)).
Proof.
  induction ps as [|[k p] ps IH]; [reflexivity|].
  cbn [JSMap.forEach JSMap.values map snd fst find] in *.
  change (in_reach b (Player.set_hasBall h p)) with (in_reach b p).
  destruct (in_reach b p); [reflexivity | exact IH].
Qed.

(** X7.  After a physics step of a playing room whose ball is free, the
    owner of the ball is the first player, in the order of the players map,
    that stands less than 35 units from the place where the step leaves the
    ball, and nobody when no player does; the scan does not move the ball. *)
Theorem first_in_reach_picks_up (now1 now2 : Z) (r : GameRoom.t) :
  GameRoom.gameState r = playing ->
  Ball.owner (GameRoom.ball r) = None ->
  (forall k p, In (k, p) (GameRoom.players r) -> Player.id p <> EmptyString) ->
  let r' := updateBall now1 now2 r in
  Ball.owner (GameRoom.ball r') =
  option_map Player.id
    (find (in_reach (GameRoom.ball r')) (JSMap.values (GameRoom.players r))).
Proof.
  intros Hs Ho Hid r'. unfold r'.
  rewrite (updateBall_free _ _ _ Hs) by (now rewrite Ho). cbv zeta.
  unfold playerCollision.
  destruct (js_lt _ 30).
  - unfold resetBall.
    cbn [GameRoom.players GameRoom.ball GameRoom.set_players GameRoom.set_ball
         GameRoom.set_lastUpdate].
    match goal with |- context [pickup ?b0 ?ps0] =>
      pose proof (pickup_first ps0 b0 eq_refl) as H;
      pose proof (pickup_ball b0 ps0) as Hb;
      destruct (pickup b0 ps0) as [b1 ps1] end.
    cbn [fst GameRoom.ball GameRoom.set_players GameRoom.set_ball] in *.
    rewrite H.
    + rewrite find_forEach_hasBall.
      destruct Hb as (Hx & Hy & _).
      f_equal. apply find_same_test. intros p. symmetry.
      now apply in_reach_position.
    + intros k p Hin. apply In_forEach in Hin as (p0 & Hin & ->). cbn.
      exact (Hid _ _ Hin).
  - cbn [GameRoom.players GameRoom.ball GameRoom.set_players GameRoom.set_ball
         GameRoom.set_lastUpdate].
    assert (Hfree : Ball.owner (flight now1 r) = None)
      by (unfold flight; now rewrite wallCollision_owner).
    pose proof (pickup_first (GameRoom.players r) (flight now1 r) Hfree Hid) as H.
    pose proof (pickup_ball (flight now1 r) (GameRoom.players r)) as Hb.
    destruct (pickup _ _) as [b1 ps1].
    cbn [fst GameRoom.ball GameRoom.set_players GameRoom.set_ball] in *.
    rewrite H. destruct Hb as (Hx & Hy & _).
    f_equal. apply find_same_test. intros p. symmetry.
    now apply in_reach_position.
Qed.

(** In [ready_room] the first player stands 16 units from the ball. *)
Lemma first_in_reach_picks_up_witness :
  Ball.owner (GameRoom.ball (updateBall 1016 1016 ready_room)) =
  option_map Player.id
    (find (in_reach (GameRoom.ball (updateBall 1016 1016 ready_room)))
          (JSMap.values (GameRoom.players ready_room))).
Proof.
  apply (first_in_reach_picks_up 1016 1016 ready_room).
  - reflexivity.
  - reflexivity.
  - intros k p H. cbn in H. destruct H as [H|[H|[]]]; injection H as <- <-; discriminate.
Defined.

(** ** Carrying the ball *)

(** X8.  In a physics step of a playing room whose ball is owned by a player
    of the room, the ball is put 15 units right of and 15 units below the
    owner's position; its velocity, its owner and [inBasket] stay, no player
    changes, and [lastUpdate] takes the second reading of the clock. *)
Theorem owned_ball_follows_owner (now1 now2 : Z) (r : GameRoom.t)
    (oid : string) (owner : Player.t) :
  GameRoom.gameState r = playing ->
  Ball.owner (GameRoom.ball r) = Some oid ->
  oid <> EmptyString ->
  JSMap.get oid (GameRoom.players r) = Some owner ->
  updateBall now1 now2 r =
  GameRoom.set_ball
    (Ball.set_y (Player.y owner + 15) (Ball.set_x (Player.x owner + 15) (GameRoom.ball r)))
    (GameRoom.set_lastUpdate now2 r).
Proof.
  intros Hs Ho Hne Hget. unfold updateBall. rewrite Hs. cbn [GameState_eqb negb].
  cbn [GameRoom.ball GameRoom.players GameRoom.set_lastUpdate].
  rewrite Ho, (truthy_Some _ Hne), Hget.
  unfold playerCollision. rewrite pickup_owned.
  - destruct r; reflexivity.
  - cbn. rewrite Ho. now apply truthy_Some.
Qed.

(** ["s1"] carries the ball in [held_room]. *)
Lemma owned_ball_follows_owner_witness :
  Ball.x (GameRoom.ball (updateBall 1048 1048 held_room)) = 909 + 15 /\
  Ball.y (GameRoom.ball (updateBall 1048 1048 held_room)) = 135 + 15.
Proof.
  rewrite (owned_ball_follows_owner 1048 1048 held_room "s1"
             (Player.mk "s1" "Ann" team1 909 135 0 0 true 0%Z true)
             eq_refl eq_refl ltac:(discriminate) eq_refl).
  split; reflexivity.
Defined.

(** ** Pausing *)

Lemma run_physics_steps_not_playing ticks : forall r,
  GameRoom.gameState r <> playing -> run (physics_steps ticks) r = r.
Proof.
  induction ticks as [|t ticks IH]; intros r H; [reflexivity|].
  cbn [physics_steps map]. rewrite run_cons, step_updateBall.
  rewrite updateBall_not_playing by exact H. now apply IH.
Qed.

(** X9.  A pause, any number of physics steps and a resume leave the room
    exactly as it was, in the playing phase: nothing moves while the room is
    paused, and [lastUpdate] is not advanced either, so the time delta of
    the first step after the resume is counted from the last step before
    the pause. *)
Theorem paused_room_is_frozen (ticks : list (Z * Z)) (r : GameRoom.t) :
  let r' := run (OpPause :: physics_steps ticks ++ [OpResume])%list r in
  r' = GameRoom.set_gameState playing r /\
  forall now, timeDelta now r' = IZR (now - GameRoom.lastUpdate r) / 1000.
Proof.
  cbv zeta. rewrite run_cons, run_app.
  rewrite run_physics_steps_not_playing by (cbn; discriminate).
  split; reflexivity.
Qed.

(** ** The flight of the ball *)



(** X11.  No physics step makes the ball faster sideways: in every room and
    every phase, the absolute value of [vx] after [updateBall] is at most
    the one before (the walls turn [vx] round without enlarging it). *)
Theorem horizontal_speed_never_grows (now1 now2 : Z) (r : GameRoom.t) :
  Rabs (Ball.vx (GameRoom.ball (updateBall now1 now2 r))) <=
  Rabs (Ball.vx (GameRoom.ball r)).
Proof.
  destruct (GameState_eqb (GameRoom.gameState r) playing) eqn:Hs.
  - assert (Hp : GameRoom.gameState r = playing)
      by (destruct (GameRoom.gameState r); try discriminate; reflexivity).
    destruct (truthy (Ball.owner (GameRoom.ball r))) eqn:Ho.
    + unfold updateBall, playerCollision. rewrite Hs. cbn [negb].
      cbn [GameRoom.ball GameRoom.set_lastUpdate]. rewrite Ho.
      destruct (Ball.owner (GameRoom.ball r)) as [oid|] eqn:Eo; [|discriminate].
      cbn [GameRoom.players].
      destruct (JSMap.get oid _); cbn; rewrite pickup_owned by (cbn; now rewrite ?Eo);
        cbn; apply Rle_refl.
    + rewrite (updateBall_free _ _ _ Hp Ho). cbv zeta. unfold playerCollision.
      destruct (js_lt _ 30).
      * unfold resetBall.
        cbn [GameRoom.players GameRoom.ball GameRoom.set_players GameRoom.set_ball
             GameRoom.set_lastUpdate].
        match goal with |- context [pickup ?b0 ?ps0] =>
          pose proof (pickup_ball b0 ps0) as Hb; destruct (pickup b0 ps0) as [b1 ps1] end.
        cbn [fst GameRoom.ball GameRoom.set_players GameRoom.set_ball] in *.
        destruct Hb as (_ & _ & -> & _). cbn. rewrite Rabs_R0. apply Rabs_pos.
      * cbn [GameRoom.players GameRoom.ball GameRoom.set_players GameRoom.set_ball
             GameRoom.set_lastUpdate].
        pose proof (pickup_ball (flight now1 r) (GameRoom.players r)) as Hb.
        destruct (pickup _ _) as [b1 ps1].
        cbn [fst GameRoom.ball GameRoom.set_players GameRoom.set_ball] in *.
        destruct Hb as (_ & _ & -> & _). unfold flight.
        set (b := applyPhysics (timeDelta now1 r) (GameRoom.ball r)).
        assert (Hb : Rabs (Ball.vx b) = 0.98 * Rabs (Ball.vx (GameRoom.ball r))).
        { unfold b, applyPhysics. ball_fields. rewrite Rabs_mult.
          rewrite (Rabs_pos_eq 0.98) by lra. lra. }
        pose proof (Rabs_pos (Ball.vx (GameRoom.ball r))) as Hpos.
        destruct (wallCollision_spec b) as (_ & _ & Hl & Hr & _ & _ & Hx & _).
        destruct (Rlt_dec (Ball.x b - BALL_RADIUS) 0) as [H|H].
        { destruct (Hl H) as [_ ->]. rewrite Rabs_Rabsolu. lra. }
        destruct (Rlt_dec GAME_WIDTH (Ball.x b + BALL_RADIUS)) as [H'|H'].
        { destruct (Hr H') as [_ ->]. rewrite Rabs_Ropp, Rabs_Rabsolu. lra. }
        destruct (Hx H H') as [_ ->]. lra.
  - rewrite updateBall_not_playing; [apply Rle_refl|].
    intros E. rewrite E in Hs. discriminate.
Qed.

(** X12.  A physics step of a playing room whose free ball neither reaches
    a wall nor comes within 30 units of the basket moves the ball by its
    velocity before the step times the time delta times [BALL_SPEED], then
    adds 5 times the time delta to [vy], then multiplies both components of
    the velocity by 0.98; [lastUpdate] takes the second reading of the
    clock. *)
Theorem free_flight_step (now1 now2 : Z) (r : GameRoom.t) :
  GameRoom.gameState r = playing ->
  truthy (Ball.owner (GameRoom.ball r)) = false ->
  let b := GameRoom.ball r in
  let dt := IZR (now1 - GameRoom.lastUpdate r) / 1000 in
  let x' := Ball.x b + Ball.vx b * dt * BALL_SPEED in
  let y' := Ball.y b + Ball.vy b * dt * BALL_SPEED in
  BALL_RADIUS <= x' <= GAME_WIDTH - BALL_RADIUS ->
  BALL_RADIUS <= y' <= GAME_HEIGHT - BALL_RADIUS ->
  30 * 30 <= (x' - BASKET_X) ^ 2 + (y' - BASKET_Y) ^ 2 ->
  let r' := updateBall now1 now2 r in
  Ball.x (GameRoom.ball r') = x' /\
  Ball.y (GameRoom.ball r') = y' /\
  Ball.vx (GameRoom.ball r') = Ball.vx b * 0.98 /\
  Ball.vy (GameRoom.ball r') = (Ball.vy b + 5 * dt) * 0.98 /\
  GameRoom.lastUpdate r' = now2.
Proof.
  intros Hs Ho b dt x' y' Hx Hy Hfar r'.
  assert (Hf : flight now1 r =
               Ball.mk x' y' (Ball.vx b * 0.98) ((Ball.vy b + 5 * dt) * 0.98)
                 (Ball.owner b) (Ball.inBasket b)).
  { unfold flight. rewrite wallCollision_inside; [reflexivity | exact Hx | exact Hy]. }
  assert (Hd : js_lt (distToBasket (flight now1 r)) 30 = false).
  { rewrite Hf. apply js_lt_false, sqrt_above; [lra | exact Hfar]. }
  destruct (updateBall_flight now1 now2 r Hs Ho Hd) as (E1 & E2 & E3 & E4).
  fold r' in E1, E2, E3, E4. rewrite E1, E2, E3, E4, Hf.
  repeat split; try reflexivity.
  unfold r'. rewrite (updateBall_free _ _ _ Hs Ho). cbv zeta. rewrite Hd.
  unfold playerCollision. destruct (pickup _ _). reflexivity.
Qed.

(** The ball thrown sideways at mid-field, a sixtieth of a second later. *)
Lemma free_flight_step_witness :
  let r :=
    GameRoom.mk "room" [] (Ball.mk 512 300 1 0 None false)
      (Score.mk 0 0) playing 1000%Z (Some 1000%Z) 6%nat in
  Ball.x (GameRoom.ball (updateBall 1016 1016 r)) = 512 + 1 * (IZR (1016 - 1000) / 1000) * BALL_SPEED /\
  Ball.vx (GameRoom.ball (updateBall 1016 1016 r)) = 1 * 0.98.
Proof.
  intros r.
  destruct (free_flight_step 1016 1016 r eq_refl eq_refl) as (Hx & _ & Hvx & _).
  - cbn. consts. lra.
  - cbn. consts. lra.
  - cbn. consts. nra.
  - split; [exact Hx | exact Hvx].
Defined.


(** * Further properties of the server *)

(** ** The maps of the server *)

Lemma step_id op r : GameRoom.id (step op r) = GameRoom.id r.
Proof.
  destruct op; cbn [step]; try reflexivity.
  - unfold addPlayer. now destruct (_ <=? _)%nat.
  - unfold removePlayer. cbn. now destruct (strict_eq _ _).
  - unfold updatePlayerPosition. now destruct (JSMap.get _ _).
  - unfold throwBall. destruct (truthy _); [|reflexivity].
    destruct (Ball.owner _); [|reflexivity]. now destruct (JSMap.get _ _).
  - unfold startGame. now destruct (2 <=? _)%nat.
  - apply updateBall_frame.
Qed.

Lemma room_ok_step k op room : room_ok k room -> room_ok k (step op room).
Proof.
  intros (Hid & Hmax & Hsize). split; [|split].
  - now rewrite step_id.
  - now rewrite step_maxPlayers.
  - rewrite <- Hmax, <- (step_maxPlayers op room). apply step_capacity. lia.
Qed.

Lemma room_ok_set_gameState k v room : room_ok k room -> room_ok k (GameRoom.set_gameState v room).
Proof. intros H. exact H. Qed.

Lemma step_has op room q :
  is_remove op = false ->
  JSMap.has q (GameRoom.players room) = true ->
  JSMap.has q (GameRoom.players (step op room)) = true.
Proof.
  intros Hop H. destruct op; cbn [step]; try exact H; try discriminate Hop.
  - unfold addPlayer. destruct (_ <=? _)%nat; [exact H|]. cbn. now apply has_set.
  - apply has_true. rewrite updatePlayerPosition_keys. now apply has_true.
  - apply has_true. rewrite throwBall_keys. now apply has_true.
  - unfold startGame. destruct (2 <=? _)%nat; exact H.
  - apply has_true. rewrite updateBall_keys. now apply has_true.
Qed.

Lemma registry_ok_rooms s rooms :
  registry_ok s ->
  NoDup (JSMap.keys rooms) ->
  (forall k room, In (k, room) rooms -> room_ok k room) ->
  registry_ok (Server.set_gameRooms rooms s).
Proof. intros (_ & Hl & Hp & _) Hnd H. split; [|split; [|split]]; assumption. Qed.

Lemma registry_ok_set_room s k room :
  registry_ok s -> room_ok k room ->
  registry_ok (Server.set_gameRooms (JSMap.set k room (Server.gameRooms s)) s).
Proof.
  intros Hs Hroom. pose proof Hs as (Hr & _ & _ & Hall).
  apply registry_ok_rooms; [exact Hs | now apply NoDup_keys_set |].
  intros k' room' Hin. apply In_set_any in Hin as [Heq|Hin]; [|now apply Hall].
  injection Heq as -> ->. exact Hroom.
Qed.

Lemma registry_ok_delete_room s k :
  registry_ok s ->
  registry_ok (Server.set_gameRooms (JSMap.delete k (Server.gameRooms s)) s).
Proof.
  intros Hs. pose proof Hs as (Hr & _ & _ & Hall).
  apply registry_ok_rooms; [exact Hs | now apply NoDup_keys_delete |].
  intros k' room' Hin. apply Hall. eapply In_delete; eassumption.
Qed.

Lemma registry_ok_emit s to event payload :
  registry_ok s -> registry_ok (Server.emit to event payload s).
Proof. intros H. exact H. Qed.

Lemma registry_ok_sockets s sockets :
  registry_ok s -> NoDup (JSMap.keys sockets) ->
  registry_ok (Server.set_playerSockets sockets s).
Proof. intros (Hr & Hl & _ & Hall) Hnd. split; [|split; [|split]]; assumption. Qed.

Lemma registry_ok_loops s loops :
  registry_ok s -> NoDup (JSMap.keys loops) ->
  registry_ok (Server.set_gameLoops loops s).
Proof. intros (Hr & _ & Hp & Hall) Hnd. split; [|split; [|split]]; assumption. Qed.

Lemma registry_ok_get s k room :
  registry_ok s -> JSMap.get k (Server.gameRooms s) = Some room -> room_ok k room.
Proof. intros (_ & _ & _ & Hall) H. apply Hall. now apply get_In. Qed.

Lemma room_ok_constructor roomId now : room_ok roomId (constructor roomId now).
Proof. repeat split. cbn. lia. Qed.

(** A handler that finds the room of a session, applies an operation other
    than a removal and stores the room keeps the registry. *)
Lemma registry_ok_update s k room op :
  registry_ok s ->
  JSMap.get k (Server.gameRooms s) = Some room ->
  registry_ok (Server.set_gameRooms (JSMap.set k (step op room) (Server.gameRooms s)) s).
Proof.
  intros Hs Hget. apply registry_ok_set_room; [exact Hs|].
  apply room_ok_step. eapply registry_ok_get; eassumption.
Qed.

Lemma registry_ok_join socket_id roomId playerName now s :
  registry_ok s -> registry_ok (snd (on_join_room socket_id roomId playerName now s)).
Proof.
  intros Hs. unfold on_join_room.
  set (room := match JSMap.get roomId (Server.gameRooms s) with
               | Some room => room | None => constructor roomId now end).
  assert (Hroom : room_ok roomId room).
  { unfold room. destruct (JSMap.get roomId (Server.gameRooms s)) eqn:E.
    - eapply registry_ok_get; eassumption.
    - apply room_ok_constructor. }
  pose proof (room_ok_step roomId (OpAddPlayer socket_id (PlayerData.mk playerName)) room Hroom)
    as Hroom'.
  cbn [step] in Hroom'.
  destruct (addPlayer socket_id (PlayerData.mk playerName) room) as [success room'].
  cbn [snd] in Hroom'.
  pose proof (registry_ok_set_room s roomId room' Hs Hroom') as H1.
  destruct success; cbn [snd]; [|exact H1].
  apply registry_ok_emit. apply registry_ok_sockets; [exact H1|].
  apply NoDup_keys_set. apply H1.
Qed.

Lemma registry_ok_startGameLoop roomId s :
  registry_ok s -> registry_ok (startGameLoop roomId s).
Proof.
  intros Hs. unfold startGameLoop. destruct (JSMap.has _ _); [exact Hs|].
  apply registry_ok_loops; [exact Hs|]. apply NoDup_keys_set. apply Hs.
Qed.

Lemma registry_ok_handle e s : registry_ok s -> registry_ok (handle e s).
Proof.
  intros Hs. destruct e; cbn [handle].
  - now apply registry_ok_join.
  - unfold on_start_game.
    destruct (JSMap.get socket_id _) as [playerData|]; [|exact Hs].
    destruct (JSMap.get (Session.roomId playerData) _) as [room|] eqn:E; [|exact Hs].
    pose proof (registry_ok_update s _ room (OpStartGame now1 now2) Hs E) as H.
    cbn [step] in H. destruct (startGame now1 now2 room) as [ok room'].
    cbn [snd] in H. destruct ok; [|exact Hs].
    apply registry_ok_startGameLoop. apply registry_ok_emit. exact H.
  - unfold on_pause_game, on_set_state.
    destruct (JSMap.get socket_id _) as [playerData|]; [|exact Hs].
    destruct (JSMap.get (Session.roomId playerData) _) as [room|] eqn:E; [|exact Hs].
    apply registry_ok_emit. exact (registry_ok_update s _ room OpPause Hs E).
  - unfold on_resume_game, on_set_state.
    destruct (JSMap.get socket_id _) as [playerData|]; [|exact Hs].
    destruct (JSMap.get (Session.roomId playerData) _) as [room|] eqn:E; [|exact Hs].
    apply registry_ok_emit. exact (registry_ok_update s _ room OpResume Hs E).
  - unfold on_leave_room.
    destruct (JSMap.get socket_id _) as [playerData|]; [|exact Hs].
    assert (H : registry_ok
                  match JSMap.get (Session.roomId playerData) (Server.gameRooms s) with
                  | Some room =>
                      let (isEmpty, room0) := removePlayer socket_id room in
                      if isEmpty
                      then Server.emit (Session.roomId playerData) "room-closed" None
                             (Server.set_gameRooms
                                (JSMap.delete (Session.roomId playerData)
                                   (Server.gameRooms s)) s)
                      else Server.emit (Session.roomId playerData) "room-update"
                             (Some (getGameState room0))
                             (Server.set_gameRooms
                                (JSMap.set (Session.roomId playerData) room0
                                   (Server.gameRooms s)) s)
                  | None => s
                  end).
    { destruct (JSMap.get (Session.roomId playerData) _) as [room|] eqn:E; [|exact Hs].
      pose proof (registry_ok_update s _ room (OpRemovePlayer socket_id) Hs E) as H.
      cbn [step] in H. destruct (removePlayer socket_id room) as [isEmpty room'].
      cbn [snd] in H. destruct isEmpty; apply registry_ok_emit;
        [now apply registry_ok_delete_room | exact H]. }
    apply registry_ok_sockets; [exact H|]. apply NoDup_keys_delete. apply H.
  - unfold tick. destruct (JSMap.has roomId _); [|exact Hs]. unfold gameLoop.
    destruct (JSMap.get roomId _) as [room|] eqn:E.
    + destruct (negb _).
      * apply registry_ok_loops; [exact Hs|]. apply NoDup_keys_delete. apply Hs.
      * apply registry_ok_emit.
        exact (registry_ok_update s _ room (OpUpdateBall now1 now2) Hs E).
    + apply registry_ok_loops; [exact Hs|]. apply NoDup_keys_delete. apply Hs.
Qed.

Lemma registry_ok_cleanupRoom s entry : registry_ok s -> registry_ok (cleanupRoom s entry).
Proof.
  intros Hs. destruct entry as [roomId room]. unfold cleanupRoom.
  destruct (_ =? 0)%nat; [|exact Hs].
  pose proof (registry_ok_delete_room s roomId Hs) as H.
  cbn [Server.gameLoops Server.set_gameRooms].
  destruct (JSMap.has roomId (Server.gameLoops s)); [|exact H].
  apply registry_ok_loops; [exact H|]. apply NoDup_keys_delete. apply Hs.
Qed.

Lemma registry_ok_cleanup s : registry_ok s -> registry_ok (cleanup s).
Proof.
  unfold cleanup. generalize (Server.gameRooms s) as l. intros l. revert s.
  induction l as [|entry l IH]; intros s Hs; [exact Hs|].
  cbn [fold_left]. apply IH. now apply registry_ok_cleanupRoom.
Qed.

Lemma registry_ok_act a s : registry_ok s -> registry_ok (act a s).
Proof.
  intros Hs. destruct a; cbn [act].
  - now apply registry_ok_handle.
  - unfold api_create_room. cbn [snd]. apply registry_ok_set_room; [exact Hs|].
    apply room_ok_constructor.
  - unfold on_player_move.
    destruct (JSMap.get socket_id _) as [playerData|]; [|exact Hs].
    destruct (JSMap.get (Session.roomId playerData) _) as [room|] eqn:E; [|exact Hs].
    apply registry_ok_emit.
    exact (registry_ok_update s _ room (OpUpdatePlayerPosition socket_id x y vx vy) Hs E).
  - unfold on_throw_ball.
    destruct (JSMap.get socket_id _) as [playerData|]; [|exact Hs].
    destruct (JSMap.get (Session.roomId playerData) _) as [room|] eqn:E; [|exact Hs].
    apply registry_ok_emit.
    exact (registry_ok_update s _ room (OpThrowBall direction power) Hs E).
  - unfold on_disconnect.
    destruct (JSMap.get socket_id _) as [playerData|]; [|exact Hs].
    assert (H : registry_ok
                  match JSMap.get (Session.roomId playerData) (Server.gameRooms s) with
                  | Some room =>
                      let (isEmpty, room0) := removePlayer socket_id room in
                      if isEmpty
                      then Server.set_gameRooms
                             (JSMap.delete (Session.roomId playerData)
                                (Server.gameRooms s)) s
                      else Server.emit (Session.roomId playerData) "room-update"
                             (Some (getGameState room0))
                             (Server.set_gameRooms
                                (JSMap.set (Session.roomId playerData) room0
                                   (Server.gameRooms s)) s)
                  | None => s
                  end).
    { destruct (JSMap.get (Session.roomId playerData) _) as [room|] eqn:E; [|exact Hs].
      pose proof (registry_ok_update s _ room (OpRemovePlayer socket_id) Hs E) as H.
      cbn [step] in H. destruct (removePlayer socket_id room) as [isEmpty room'].
      cbn [snd] in H. destruct isEmpty;
        [now apply registry_ok_delete_room | apply registry_ok_emit; exact H]. }
    apply registry_ok_sockets; [exact H|]. apply NoDup_keys_delete. apply H.
  - now apply registry_ok_cleanup.
Qed.

Lemma registry_ok_init : registry_ok Server.init.
Proof.
  split; [constructor|]. split; [constructor|]. split; [constructor|].
  intros k room [].
Qed.

Lemma registry_ok_perform acts : forall s, registry_ok s -> registry_ok (perform acts s).
Proof.
  induction acts as [|a acts IH]; intros s Hs; [exact Hs|].
  cbn [perform fold_left]. apply IH. now apply registry_ok_act.
Qed.

Lemma NoDup_map_inj {A B : Type} (f g : A -> B) (l : list A) :
  (forall a, In a l -> f a = g a) -> NoDup (map g l) -> NoDup (map f l).
Proof.
  intros H Hnd. rewrite (map_ext_in f g l H). exact Hnd.
Qed.

(** X13.  Whatever the server has been through (socket messages, periods of
    the intervals, sweeps, rooms created over HTTP), each of its three maps
    has one entry per key, every room is stored under its own id with a
    capacity of 6 and at most 6 players, and the answer of [GET /api/rooms]
    has one element per room, no id twice, and no element whose
    [playerCount] exceeds its [maxPlayers] = 6. *)
Theorem registry_stays_well_formed (acts : list Action) :
  let s := perform acts Server.init in
  registry_ok s /\
  List.length (api_rooms s) = JSMap.size (Server.gameRooms s) /\
  NoDup (map RoomInfo.id (api_rooms s)) /\
  (forall info, In info (api_rooms s) ->
                RoomInfo.maxPlayers info = 6%nat /\
                (RoomInfo.playerCount info <= RoomInfo.maxPlayers info)%nat).
Proof.
  intros s.
  assert (Hs : registry_ok s) by (apply registry_ok_perform, registry_ok_init).
  split; [exact Hs|]. destruct Hs as (Hnd & _ & _ & Hall).
  unfold api_rooms, JSMap.values, JSMap.size. rewrite !length_map, !map_map.
  split; [reflexivity|]. split.
  - cbn [RoomInfo.id]. apply (NoDup_map_inj _ fst); [|exact Hnd].
    intros [k room] Hin. cbn. apply (Hall k room Hin).
  - intros info Hin. apply in_map_iff in Hin as ([k0 room] & <- & Hin).
    cbn. destruct (Hall k0 room Hin) as (_ & Hmax & Hsize). rewrite Hmax. unfold JSMap.size in *.
    split; [reflexivity|lia].
Qed.

(** ** The sessions *)

Lemma sessions_ok_same s s' :
  Server.gameRooms s' = Server.gameRooms s ->
  Server.playerSockets s' = Server.playerSockets s ->
  sessions_ok s -> sessions_ok s'.
Proof. intros Hr Hp H. unfold sessions_ok. rewrite Hr, Hp. exact H. Qed.

Lemma sessions_ok_set_room s k room' :
  sessions_ok s ->
  (forall room, JSMap.get k (Server.gameRooms s) = Some room ->
                forall q, JSMap.has q (GameRoom.players room) = true ->
                          JSMap.has q (GameRoom.players room') = true) ->
  sessions_ok (Server.set_gameRooms (JSMap.set k room' (Server.gameRooms s)) s).
Proof.
  intros Hs Hkeep socket_id session Hget.
  cbn [Server.playerSockets Server.gameRooms Server.set_gameRooms] in *.
  destruct (Hs socket_id session Hget) as (Hid & room & Hroom & Hhas).
  split; [exact Hid|].
  destruct (String.eqb_spec k (Session.roomId session)) as [Heq|Hne].
  - rewrite <- Heq in Hroom |- *.
    exists room'. split; [apply get_set_same|]. exact (Hkeep room Hroom _ Hhas).
  - exists room. split; [|exact Hhas]. now rewrite get_set_other.
Qed.

Lemma sessions_ok_update s k room op :
  sessions_ok s ->
  JSMap.get k (Server.gameRooms s) = Some room ->
  is_remove op = false ->
  sessions_ok (Server.set_gameRooms (JSMap.set k (step op room) (Server.gameRooms s)) s).
Proof.
  intros Hs Hget Hop. apply sessions_ok_set_room; [exact Hs|].
  intros room0 Hget0 q Hq. rewrite Hget in Hget0. injection Hget0 as <-.
  now apply step_has.
Qed.

Lemma sessions_ok_join socket_id roomId playerName now s :
  sessions_ok s -> sessions_ok (snd (on_join_room socket_id roomId playerName now s)).
Proof.
  intros Hs. unfold on_join_room.
  set (room := match JSMap.get roomId (Server.gameRooms s) with
               | Some room => room | None => constructor roomId now end).
  assert (Hkeep : forall room0, JSMap.get roomId (Server.gameRooms s) = Some room0 ->
                  forall q, JSMap.has q (GameRoom.players room0) = true ->
                  JSMap.has q (GameRoom.players
                                 (snd (addPlayer socket_id (PlayerData.mk playerName) room)))
                  = true).
  { intros room0 Hget q Hq. unfold room. rewrite Hget.
    apply (step_has (OpAddPlayer socket_id (PlayerData.mk playerName))); [reflexivity|exact Hq]. }
  assert (Hin : fst (addPlayer socket_id (PlayerData.mk playerName) room) = true ->
                JSMap.has socket_id
                  (GameRoom.players
                     (snd (addPlayer socket_id (PlayerData.mk playerName) room))) = true).
  { unfold addPlayer. destruct (_ <=? _)%nat; [discriminate|]. intros _. cbn.
    unfold JSMap.has. now rewrite get_set_same. }
  destruct (addPlayer socket_id (PlayerData.mk playerName) room) as [success room'].
  cbn [fst snd] in *.
  pose proof (sessions_ok_set_room s roomId room' Hs Hkeep) as H1.
  destruct success; cbn [snd]; [|exact H1].
  intros sid session Hget.
  cbn [Server.playerSockets Server.gameRooms Server.set_gameRooms
       Server.set_playerSockets Server.emit] in *.
  destruct (String.eqb_spec socket_id sid) as [<-|Hne].
  - rewrite get_set_same in Hget. injection Hget as <-. cbn.
    split; [reflexivity|]. exists room'. split; [apply get_set_same | now apply Hin].
  - rewrite get_set_other in Hget by exact Hne. exact (H1 sid session Hget).
Qed.

Lemma has_not_deserted q room :
  JSMap.has q (GameRoom.players room) = true -> deserted room = false.
Proof.
  unfold JSMap.has, deserted, JSMap.size.
  destruct (GameRoom.players room); [discriminate | reflexivity].
Qed.

Lemma removePlayer_players playerId r :
  GameRoom.players (snd (removePlayer playerId r)) =
    JSMap.delete playerId (GameRoom.players r) /\
  fst (removePlayer playerId r) =
    (JSMap.size (JSMap.delete playerId (GameRoom.players r)) =? 0)%nat.
Proof. unfold removePlayer. cbn. destruct (strict_eq _ _); split; reflexivity. Qed.

Lemma sessions_ok_disconnect socket_id s :
  registry_ok s -> sessions_ok s -> sessions_ok (on_disconnect socket_id s).
Proof.
  intros Hreg Hs. unfold on_disconnect.
  destruct (JSMap.get socket_id (Server.playerSockets s)) as [playerData|] eqn:Hme;
    [|exact Hs].
  set (s1 := match JSMap.get (Session.roomId playerData) (Server.gameRooms s) with
             | Some room => _ | None => s end).
  assert (Hp1 : Server.playerSockets s1 = Server.playerSockets s).
  { unfold s1. destruct (JSMap.get (Session.roomId playerData) _) as [mine|];
      [|reflexivity].
    destruct (removePlayer socket_id mine) as [[] ?]; reflexivity. }
  intros sid session Hget.
  cbn [Server.playerSockets Server.gameRooms Server.set_playerSockets] in *.
  rewrite Hp1 in Hget.
  assert (Hne : socket_id <> sid).
  { intros ->. rewrite get_delete_same in Hget by apply Hreg. discriminate. }
  rewrite get_delete_other in Hget by exact Hne.
  destruct (Hs sid session Hget) as (Hid & room & Hroom & Hhas).
  split; [exact Hid|]. unfold s1.
  destruct (JSMap.get (Session.roomId playerData) (Server.gameRooms s)) as [mine|] eqn:Hmine;
    [|exists room; split; assumption].
  destruct (removePlayer_players socket_id mine) as [Hps Hfst].
  destruct (removePlayer socket_id mine) as [isEmpty mine']. cbn [fst snd] in Hps, Hfst.
  destruct (String.eqb_spec (Session.roomId playerData) (Session.roomId session))
    as [Heq|Hdiff].
  - rewrite <- Heq in Hroom |- *. rewrite Hmine in Hroom. injection Hroom as <-.
    assert (Hstill : JSMap.has sid (JSMap.delete socket_id (GameRoom.players mine)) = true)
      by (unfold JSMap.has; now rewrite get_delete_other).
    assert (Hsz : isEmpty = false).
    { rewrite Hfst. unfold JSMap.has, JSMap.size in *.
      destruct (JSMap.delete socket_id (GameRoom.players mine)); [discriminate|reflexivity]. }
    rewrite Hsz. cbn [Server.gameRooms Server.set_gameRooms Server.emit].
    exists mine'. split; [apply get_set_same | now rewrite Hps].
  - exists room. split; [|exact Hhas].
    destruct isEmpty; cbn [Server.gameRooms Server.set_gameRooms Server.emit].
    + now rewrite get_delete_other.
    + now rewrite get_set_other.
Qed.

(** [leave-room] and [disconnect] leave the same three maps. *)
Lemma leave_as_disconnect socket_id s :
  Server.gameRooms (on_leave_room socket_id s) = Server.gameRooms (on_disconnect socket_id s) /\
  Server.playerSockets (on_leave_room socket_id s) =
    Server.playerSockets (on_disconnect socket_id s) /\
  Server.gameLoops (on_leave_room socket_id s) = Server.gameLoops (on_disconnect socket_id s).
Proof.
  unfold on_leave_room, on_disconnect.
  destruct (JSMap.get socket_id _) as [playerData|]; [|repeat split].
  destruct (JSMap.get (Session.roomId playerData) _) as [room|]; [|repeat split].
  destruct (removePlayer socket_id room) as [isEmpty room'].
  destruct isEmpty; repeat split.
Qed.

Lemma cleanupRoom_frame s entry :
  Server.playerSockets (cleanupRoom s entry) = Server.playerSockets s /\
  Server.sent (cleanupRoom s entry) = Server.sent s.
Proof.
  destruct entry as [roomId room]. unfold cleanupRoom.
  destruct (_ =? 0)%nat; [|split; reflexivity].
  cbn [Server.gameLoops Server.set_gameRooms].
  destruct (JSMap.has _ _); split; reflexivity.
Qed.

Lemma cleanup_fold_frame l : forall s,
  Server.playerSockets (fold_left cleanupRoom l s) = Server.playerSockets s /\
  Server.sent (fold_left cleanupRoom l s) = Server.sent s.
Proof.
  induction l as [|entry l IH]; intros s; [split; reflexivity|].
  cbn [fold_left]. destruct (IH (cleanupRoom s entry)) as [-> ->].
  apply cleanupRoom_frame.
Qed.

Lemma cleanupRoom_rooms s roomId room :
  Server.gameRooms (cleanupRoom s (roomId, room)) =
  if deserted room then JSMap.delete roomId (Server.gameRooms s) else Server.gameRooms s.
Proof.
  unfold cleanupRoom, deserted. destruct (_ =? 0)%nat; [|reflexivity].
  cbn [Server.gameLoops Server.set_gameRooms]. now destruct (JSMap.has _ _).
Qed.

(** The sweep keeps every room that has a player. *)
Lemma cleanup_fold_keeps l : forall s k room,
  JSMap.get k (Server.gameRooms s) = Some room ->
  (forall room', In (k, room') l -> deserted room' = false) ->
  JSMap.get k (Server.gameRooms (fold_left cleanupRoom l s)) = Some room.
Proof.
  induction l as [|[k0 room0] l IH]; intros s k room Hget Hl; [exact Hget|].
  cbn [fold_left]. apply IH; [|intros room' Hin; apply Hl; now right].
  rewrite cleanupRoom_rooms. destruct (deserted room0) eqn:E; [|exact Hget].
  rewrite get_delete_other; [exact Hget|].
  intros ->. rewrite (Hl room0) in E by now left. discriminate.
Qed.

Lemma sessions_ok_cleanup s : registry_ok s -> sessions_ok s -> sessions_ok (cleanup s).
Proof.
  intros Hreg Hs sid session Hget. unfold cleanup in *.
  destruct (cleanup_fold_frame (Server.gameRooms s) s) as [Hp _]. rewrite Hp in Hget.
  destruct (Hs sid session Hget) as (Hid & room & Hroom & Hhas).
  split; [exact Hid|]. exists room. split; [|exact Hhas].
  apply cleanup_fold_keeps; [exact Hroom|].
  intros room' Hin. apply (In_get _ _ _ (proj1 Hreg)) in Hin.
  rewrite Hroom in Hin. injection Hin as <-. eapply has_not_deserted; eassumption.
Qed.

Lemma sessions_ok_handle e s : registry_ok s -> sessions_ok s -> sessions_ok (handle e s).
Proof.
  intros Hreg Hs. destruct e; cbn [handle].
  - now apply sessions_ok_join.
  - unfold on_start_game.
    destruct (JSMap.get socket_id _) as [playerData|]; [|exact Hs].
    destruct (JSMap.get (Session.roomId playerData) _) as [room|] eqn:E; [|exact Hs].
    pose proof (sessions_ok_update s _ room (OpStartGame now1 now2) Hs E eq_refl) as H.
    cbn [step] in H. destruct (startGame now1 now2 room) as [ok room'].
    cbn [snd] in H. destruct ok; [|exact Hs].
    unfold startGameLoop. destruct (JSMap.has _ _); exact H.
  - unfold on_pause_game, on_set_state.
    destruct (JSMap.get socket_id _) as [playerData|]; [|exact Hs].
    destruct (JSMap.get (Session.roomId playerData) _) as [room|] eqn:E; [|exact Hs].
    exact (sessions_ok_update s _ room OpPause Hs E eq_refl).
  - unfold on_resume_game, on_set_state.
    destruct (JSMap.get socket_id _) as [playerData|]; [|exact Hs].
    destruct (JSMap.get (Session.roomId playerData) _) as [room|] eqn:E; [|exact Hs].
    exact (sessions_ok_update s _ room OpResume Hs E eq_refl).
  - destruct (leave_as_disconnect socket_id s) as (Hr & Hp & _).
    apply (sessions_ok_same _ _ Hr Hp). now apply sessions_ok_disconnect.
  - unfold tick. destruct (JSMap.has roomId _); [|exact Hs]. unfold gameLoop.
    destruct (JSMap.get roomId _) as [room|] eqn:E; [|exact Hs].
    destruct (negb _); [exact Hs|].
    exact (sessions_ok_update s _ room (OpUpdateBall now1 now2) Hs E eq_refl).
Qed.

Lemma sessions_ok_act a s :
  is_create a = false -> registry_ok s -> sessions_ok s -> sessions_ok (act a s).
Proof.
  intros Ha Hreg Hs. destruct a; cbn [act]; try discriminate Ha.
  - now apply sessions_ok_handle.
  - unfold on_player_move.
    destruct (JSMap.get socket_id _) as [playerData|]; [|exact Hs].
    destruct (JSMap.get (Session.roomId playerData) _) as [room|] eqn:E; [|exact Hs].
    exact (sessions_ok_update s _ room (OpUpdatePlayerPosition socket_id x y vx vy)
             Hs E eq_refl).
  - unfold on_throw_ball.
    destruct (JSMap.get socket_id _) as [playerData|]; [|exact Hs].
    destruct (JSMap.get (Session.roomId playerData) _) as [room|] eqn:E; [|exact Hs].
    exact (sessions_ok_update s _ room (OpThrowBall direction power) Hs E eq_refl).
  - now apply sessions_ok_disconnect.
  - now apply sessions_ok_cleanup.
Qed.

Lemma sessions_ok_perform acts : forall s,
  forallb (fun a => negb (is_create a)) acts = true ->
  registry_ok s -> sessions_ok s -> sessions_ok (perform acts s).
Proof.
  induction acts as [|a acts IH]; intros s Hall Hreg Hs; [exact Hs|].
  cbn [forallb] in Hall. apply andb_prop in Hall as [Ha Hall].
  cbn [perform fold_left]. apply IH; [exact Hall | now apply registry_ok_act |].
  apply sessions_ok_act; [|exact Hreg|exact Hs].
  now destruct (is_create a).
Qed.

Lemma sessions_stay_routable_aux (acts : list Action) :
  forallb (fun a => negb (is_create a)) acts = true ->
  sessions_ok (perform acts Server.init).
Proof.
  intros Hall. apply sessions_ok_perform; [exact Hall | apply registry_ok_init |].
  intros sid session Hget. discriminate Hget.
Qed.

(** X14.  As long as no room is created over HTTP, whatever the sockets
    send and whatever the intervals and the sweep do, every session of
    [playerSockets] is stored under the socket id it names as its player and
    names a room that exists and holds a player under that id: a message
    routed through a session always finds its room and its player. *)
Theorem sessions_stay_routable (acts : list Action) :
  forallb (fun a => negb (is_create a)) acts = true ->
  sessions_ok (perform acts Server.init).
Proof.
  exact (sessions_stay_routable_aux acts).
Qed.

(** Two sockets join, one disconnects, the sweep runs: the session left
    names the room and the room holds its player. *)
Lemma sessions_stay_routable_witness :
  sessions_ok
    (perform [Socket (JoinRoom "s1" "room" "Ann" 0); Socket (JoinRoom "s2" "room" "Bob" 5);
              Socket (StartGame "s1" 1000 1000); Disconnect "s2"; Cleanup]
             Server.init).
Proof.
  apply sessions_stay_routable. reflexivity.
Defined.

(** ** Messages of a socket *)

(** X15.  A socket without a session is ignored: its [player-move],
    [throw-ball], [start-game], [pause-game], [resume-game], [leave-room]
    and [disconnect] leave the rooms, the sessions and the intervals as they
    are and send nothing. *)
Theorem socket_without_session_is_ignored (socket_id : string) (s : Server.t) :
  JSMap.get socket_id (Server.playerSockets s) = None ->
  (forall x y vx vy, on_player_move socket_id x y vx vy s = s) /\
  (forall direction power, on_throw_ball socket_id direction power s = s) /\
  (forall now1 now2, on_start_game socket_id now1 now2 s = s) /\
  on_pause_game socket_id s = s /\
  on_resume_game socket_id s = s /\
  on_leave_room socket_id s = s /\
  on_disconnect socket_id s = s.
Proof.
  intros H.
  unfold on_player_move, on_throw_ball, on_start_game, on_pause_game, on_resume_game,
    on_set_state, on_leave_room, on_disconnect.
  rewrite H. repeat split.
Qed.

(** A third socket, which never joined, sends to [held_server]. *)
Lemma socket_without_session_is_ignored_witness :
  on_throw_ball "s3" 0 100 held_server = held_server /\
  on_leave_room "s3" held_server = held_server.
Proof.
  destruct (socket_without_session_is_ignored "s3" held_server eq_refl)
    as (_ & Hthrow & _ & _ & _ & Hleave & _).
  split; [apply Hthrow | exact Hleave].
Defined.

(** X16.  [throw-ball] does not ask who holds the ball: sent by any socket
    with a session in the room, it makes the room's ball leave its owner,
    whoever that is, with the velocity of the throw, clears the owner's
    [hasBall], and sends one [room-update] to the room. *)
Theorem any_member_throws_the_ball (socket_id : string) (direction power : R)
    (s : Server.t) (session : Session.t) (room : GameRoom.t)
    (oid : string) (owner : Player.t) :
  JSMap.get socket_id (Server.playerSockets s) = Some session ->
  JSMap.get (Session.roomId session) (Server.gameRooms s) = Some room ->
  Ball.owner (GameRoom.ball room) = Some oid ->
  oid <> EmptyString ->
  JSMap.get oid (GameRoom.players room) = Some owner ->
  let s' := on_throw_ball socket_id direction power s in
  let room' := throwBall direction power room in
  JSMap.get (Session.roomId session) (Server.gameRooms s') = Some room' /\
  Ball.owner (GameRoom.ball room') = None /\
  Ball.vx (GameRoom.ball room') = cos direction * (Rmin power 100 / 100) /\
  Ball.vy (GameRoom.ball room') = sin direction * (Rmin power 100 / 100) /\
  JSMap.get oid (GameRoom.players room') = Some (Player.set_hasBall false owner) /\
  Server.sent s' =
    (Server.sent s ++
     [Message.mk (Session.roomId session) "room-update" (Some (getGameState room'))])%list /\
  Server.playerSockets s' = Server.playerSockets s /\
  Server.gameLoops s' = Server.gameLoops s.
Proof.
  intros Hsess Hroom Ho Hne Hget s' room'. unfold s', on_throw_ball.
  rewrite Hsess, Hroom.
  cbn [Server.gameRooms Server.emit Server.set_gameRooms Server.sent
       Server.playerSockets Server.gameLoops].
  split; [apply get_set_same|].
  unfold room'. rewrite (throwBall_owned _ _ _ _ _ Ho Hne Hget). cbn.
  split; [reflexivity|]. split; [reflexivity|]. split; [reflexivity|].
  split; [apply get_set_same|]. repeat split.
Qed.

(** In [held_server] the ball is held by ["s1"]; ["s2"] sends the throw. *)
Lemma any_member_throws_the_ball_witness :
  exists room',
    JSMap.get "room" (Server.gameRooms (on_throw_ball "s2" 0 100 held_server)) = Some room' /\
    Ball.owner (GameRoom.ball room') = None.
Proof.
  destruct (any_member_throws_the_ball "s2" 0 100 held_server (Session.mk "room" "s2")
              held_room "s1" (Player.mk "s1" "Ann" team1 909 135 0 0 true 0%Z true)
              eq_refl eq_refl eq_refl ltac:(discriminate) eq_refl) as (H1 & H2 & _).
  eexists. split; [exact H1 | exact H2].
Defined.

(** X17.  [join-room] does not take the socket out of the room it was in: a
    socket with a session in one room that joins another room leaves the
    first room as it is, with its player object still there; when the join
    succeeds the session names the new room only, so a later [leave-room]
    of this socket does not touch the first room either. *)
Theorem join_keeps_previous_room (socket_id roomId playerName : string) (now : Z)
    (s : Server.t) (session : Session.t) (previous : GameRoom.t) :
  JSMap.get socket_id (Server.playerSockets s) = Some session ->
  Session.roomId session <> roomId ->
  JSMap.get (Session.roomId session) (Server.gameRooms s) = Some previous ->
  let s' := snd (on_join_room socket_id roomId playerName now s) in
  JSMap.get (Session.roomId session) (Server.gameRooms s') = Some previous /\
  (fst (on_join_room socket_id roomId playerName now s) = true ->
   JSMap.get socket_id (Server.playerSockets s') = Some (Session.mk roomId socket_id) /\
   JSMap.get (Session.roomId session) (Server.gameRooms (on_leave_room socket_id s'))
   = Some previous).
Proof.
  intros Hsess Hne Hprev s'. unfold s', on_join_room.
  set (room := match JSMap.get roomId (Server.gameRooms s) with
               | Some room => room | None => constructor roomId now end).
  destruct (addPlayer socket_id (PlayerData.mk playerName) room) as [success room'].
  assert (Hother : JSMap.get (Session.roomId session)
                     (JSMap.set roomId room' (Server.gameRooms s)) = Some previous)
    by (rewrite get_set_other by congruence; exact Hprev).
  destruct success; cbn [fst snd]; [|split; [exact Hother | discriminate]].
  cbn [Server.gameRooms Server.emit Server.set_gameRooms Server.set_playerSockets
       Server.playerSockets].
  split; [exact Hother|]. intros _. split; [apply get_set_same|].
  unfold on_leave_room.
  cbn [Server.gameRooms Server.emit Server.set_gameRooms Server.set_playerSockets
       Server.playerSockets].
  rewrite !get_set_same. cbn [Session.roomId].
  destruct (removePlayer socket_id room') as [isEmpty room''].
  destruct isEmpty;
    cbn [Server.gameRooms Server.emit Server.set_gameRooms Server.set_playerSockets].
  - rewrite get_delete_other by congruence. exact Hother.
  - rewrite get_set_other by congruence. exact Hother.
Qed.

(** ["s2"] of [held_server] joins a room of its own; [held_room] keeps it. *)
Lemma join_keeps_previous_room_witness :
  JSMap.get "room"
    (Server.gameRooms (snd (on_join_room "s2" "other" "Bob" 2000 held_server)))
  = Some held_room.
Proof.
  exact (proj1 (join_keeps_previous_room "s2" "other" "Bob" 2000 held_server
                  (Session.mk "room" "s2") held_room
                  eq_refl ltac:(discriminate) eq_refl)).
Defined.

(** ** The interval of a room *)

(** X18.  One period of the interval of a room, on any server the actions
    can produce.  When the room exists and is playing and its interval is
    live, the period runs one [updateBall] on the room, stores it and sends
    one [game-update] with the new snapshot.  When the room is gone or not
    playing, the period leaves the room without interval and changes neither
    the rooms nor the sessions nor the messages.  Without a live interval
    nothing happens at all. *)
Theorem interval_period (acts : list Action) (roomId : string) (now1 now2 : Z) :
  let s := perform acts Server.init in
  let s' := tick roomId now1 now2 s in
  (forall room,
      JSMap.get roomId (Server.gameRooms s) = Some room ->
      GameRoom.gameState room = playing ->
      JSMap.has roomId (Server.gameLoops s) = true ->
      s' = Server.emit roomId "game-update"
             (Some (getGameState (updateBall now1 now2 room)))
             (Server.set_gameRooms
                (JSMap.set roomId (updateBall now1 now2 room) (Server.gameRooms s)) s)) /\
  ((JSMap.get roomId (Server.gameRooms s) = None \/
    exists room, JSMap.get roomId (Server.gameRooms s) = Some room /\
                 GameRoom.gameState room <> playing) ->
   JSMap.has roomId (Server.gameLoops s') = false /\
   Server.gameRooms s' = Server.gameRooms s /\
   Server.playerSockets s' = Server.playerSockets s /\
   Server.sent s' = Server.sent s) /\
  (JSMap.has roomId (Server.gameLoops s) = false -> s' = s).
Proof.
  intros s s'.
  assert (Hreg : registry_ok s) by (apply registry_ok_perform, registry_ok_init).
  unfold s', tick, gameLoop. split; [|split].
  - intros room Hget Hplaying Hloop. rewrite Hloop, Hget, Hplaying. reflexivity.
  - intros Hgone. destruct (JSMap.has roomId (Server.gameLoops s)) eqn:Hloop;
      [|repeat split; exact Hloop].
    assert (Hdel : JSMap.has roomId (JSMap.delete roomId (Server.gameLoops s)) = false).
    { unfold JSMap.has. rewrite get_delete_same; [reflexivity | apply Hreg]. }
    destruct Hgone as [Hnone|(room & Hget & Hstate)].
    + rewrite Hnone. repeat split. exact Hdel.
    + rewrite Hget. destruct (GameRoom.gameState room); try (now elim Hstate);
        repeat split; exact Hdel.
  - intros Hloop. now rewrite Hloop.
Qed.

(** ** The end of a room *)

Lemma delete_only_player {V : Type} (k : string) (m : JSMap.t V) :
  JSMap.has k m = true -> JSMap.size m = 1%nat -> JSMap.delete k m = [].
Proof.
  unfold JSMap.has, JSMap.size. destruct m as [|[k0 v0] [|e m]]; try discriminate.
  cbn. destruct (String.eqb k0 k); [reflexivity | discriminate].
Qed.

(** X19.  On a server produced without rooms created over HTTP, when the
    only player of a room leaves, by [leave-room] or by [disconnect], the
    room is deleted from [gameRooms] and no longer listed by
    [GET /api/rooms], and the session of the socket is deleted;
    [leave-room] sends one [room-closed] to the room, [disconnect] sends
    nothing. *)
Theorem last_player_closes_room (acts : list Action) (socket_id : string)
    (session : Session.t) (room : GameRoom.t) :
  forallb (fun a => negb (is_create a)) acts = true ->
  let s := perform acts Server.init in
  JSMap.get socket_id (Server.playerSockets s) = Some session ->
  JSMap.get (Session.roomId session) (Server.gameRooms s) = Some room ->
  JSMap.size (GameRoom.players room) = 1%nat ->
  let left := on_leave_room socket_id s in
  let gone := on_disconnect socket_id s in
  JSMap.get (Session.roomId session) (Server.gameRooms left) = None /\
  JSMap.get socket_id (Server.playerSockets left) = None /\
  (forall info, In info (api_rooms left) -> RoomInfo.id info <> Session.roomId session) /\
  Server.sent left =
    (Server.sent s ++ [Message.mk (Session.roomId session) "room-closed" None])%list /\
  Server.gameRooms gone = Server.gameRooms left /\
  Server.playerSockets gone = Server.playerSockets left /\
  Server.sent gone = Server.sent s.
Proof.
  intros Hall s Hsess Hroom Hone left gone.
  assert (Hreg : registry_ok s) by (apply registry_ok_perform, registry_ok_init).
  assert (Hs : sessions_ok s) by (now apply sessions_stay_routable_aux).
  destruct (Hs socket_id session Hsess) as (_ & room0 & Hroom0 & Hhas).
  rewrite Hroom in Hroom0. injection Hroom0 as <-.
  destruct (removePlayer_players socket_id room) as [Hps Hfst].
  rewrite (delete_only_player _ _ Hhas Hone) in Hfst.
  change (fst (removePlayer socket_id room) = true) in Hfst.
  assert (Hleft : left = Server.set_playerSockets
                           (JSMap.delete socket_id (Server.playerSockets s))
                           (Server.emit (Session.roomId session) "room-closed" None
                              (Server.set_gameRooms
                                 (JSMap.delete (Session.roomId session) (Server.gameRooms s))
                                 s))).
  { unfold left, on_leave_room. rewrite Hsess, Hroom. revert Hfst.
    destruct (removePlayer socket_id room) as [isEmpty room']. cbn [fst].
    intros ->. reflexivity. }
  assert (Hgone : gone = Server.set_playerSockets
                           (JSMap.delete socket_id (Server.playerSockets s))
                           (Server.set_gameRooms
                              (JSMap.delete (Session.roomId session) (Server.gameRooms s))
                              s)).
  { unfold gone, on_disconnect. rewrite Hsess, Hroom. revert Hfst.
    destruct (removePlayer socket_id room) as [isEmpty room']. cbn [fst].
    intros ->. reflexivity. }
  rewrite Hleft, Hgone.
  cbn [Server.gameRooms Server.playerSockets Server.sent Server.emit
       Server.set_gameRooms Server.set_playerSockets].
  assert (Hnone : JSMap.get (Session.roomId session)
                    (JSMap.delete (Session.roomId session) (Server.gameRooms s)) = None)
    by (apply get_delete_same, Hreg).
  split; [exact Hnone|]. split; [apply get_delete_same, Hreg|].
  split; [|repeat split].
  intros info Hin. unfold api_rooms, JSMap.values in Hin.
  cbn [Server.gameRooms Server.emit Server.set_gameRooms Server.set_playerSockets] in Hin.
  rewrite map_map in Hin. apply in_map_iff in Hin as ([k room1] & <- & Hin).
  cbn [snd RoomInfo.id].
  assert (Hk : GameRoom.id room1 = k).
  { destruct Hreg as (_ & _ & _ & Hrooms). apply (Hrooms k room1).
    eapply In_delete; eassumption. }
  rewrite Hk. intros ->.
  apply get_None_keys in Hnone. apply Hnone. eapply In_keys; eassumption.
Qed.

(** One socket joins a room and leaves it. *)
Lemma last_player_closes_room_witness :
  JSMap.get "room"
    (Server.gameRooms
       (on_leave_room "s1" (perform [Socket (JoinRoom "s1" "room" "Ann" 0)] Server.init)))
  = None.
Proof.
  exact (proj1 (last_player_closes_room [Socket (JoinRoom "s1" "room" "Ann" 0)] "s1"
                  (Session.mk "room" "s1") _ eq_refl eq_refl eq_refl eq_refl)).
Defined.

(** ** The sweep *)

Section DeleteDeserted.
Context {V : Type}.
Implicit Types (m : JSMap.t V) (l : list (string * GameRoom.t)).

Lemma get_delete_None k k0 m : JSMap.get k m = None -> JSMap.get k (JSMap.delete k0 m) = None.
Proof.
  rewrite !get_None_keys. intros H Hin. apply H. eapply keys_delete_incl; eassumption.
Qed.

Lemma delete_absent k m : JSMap.has k m = false -> JSMap.delete k m = m.
Proof.
  unfold JSMap.has. induction m as [|[k0 v0] m IH]; simpl; [reflexivity|].
  destruct (String.eqb k0 k); [discriminate|]. intros H. now rewrite IH.
Qed.

Lemma delete_deserted_NoDup l : forall m,
  NoDup (JSMap.keys m) -> NoDup (JSMap.keys (delete_deserted l m)).
Proof.
  induction l as [|[k0 room0] l IH]; intros m H; [exact H|].
  cbn [delete_deserted fold_left fst snd]. apply IH.
  destruct (deserted room0); [now apply NoDup_keys_delete | exact H].
Qed.

Lemma delete_deserted_None l : forall m k,
  JSMap.get k m = None -> JSMap.get k (delete_deserted l m) = None.
Proof.
  induction l as [|[k0 room0] l IH]; intros m k H; [exact H|].
  cbn [delete_deserted fold_left fst snd]. apply IH.
  destruct (deserted room0); [now apply get_delete_None | exact H].
Qed.

Lemma delete_deserted_keeps l : forall m k v,
  JSMap.get k m = Some v ->
  (forall room, In (k, room) l -> deserted room = false) ->
  JSMap.get k (delete_deserted l m) = Some v.
Proof.
  induction l as [|[k0 room0] l IH]; intros m k v Hget Hl; [exact Hget|].
  cbn [delete_deserted fold_left fst snd].
  apply IH; [|intros room Hin; apply Hl; now right].
  destruct (deserted room0) eqn:E; [|exact Hget].
  rewrite get_delete_other; [exact Hget|].
  intros ->. rewrite (Hl room0) in E by now left. discriminate.
Qed.

Lemma delete_deserted_removes l : forall m k room,
  NoDup (JSMap.keys m) ->
  In (k, room) l -> deserted room = true ->
  JSMap.get k (delete_deserted l m) = None.
Proof.
  induction l as [|[k0 room0] l IH]; intros m k room Hnd Hin Hd; [destruct Hin|].
  cbn [delete_deserted fold_left fst snd]. destruct Hin as [Heq|Hin].
  - injection Heq as -> ->. rewrite Hd. apply delete_deserted_None.
    now apply get_delete_same.
  - apply (IH _ k room); [|exact Hin|exact Hd].
    destruct (deserted room0); [now apply NoDup_keys_delete | exact Hnd].
Qed.

Lemma delete_deserted_sub l : forall m k v,
  NoDup (JSMap.keys m) ->
  JSMap.get k (delete_deserted l m) = Some v -> JSMap.get k m = Some v.
Proof.
  induction l as [|[k0 room0] l IH]; intros m k v Hnd H; [exact H|].
  cbn [delete_deserted fold_left fst snd] in H.
  destruct (deserted room0).
  - apply IH in H; [|now apply NoDup_keys_delete].
    destruct (String.eqb_spec k0 k) as [->|Hne].
    + rewrite get_delete_same in H by exact Hnd. discriminate.
    + now rewrite get_delete_other in H.
  - now apply IH in H.
Qed.
End DeleteDeserted.

Lemma cleanupRoom_maps s roomId room :
  Server.gameRooms (cleanupRoom s (roomId, room)) =
    (if deserted room then JSMap.delete roomId (Server.gameRooms s)
     else Server.gameRooms s) /\
  Server.gameLoops (cleanupRoom s (roomId, room)) =
    (if deserted room then JSMap.delete roomId (Server.gameLoops s)
     else Server.gameLoops s).
Proof.
  unfold cleanupRoom, deserted. destruct (_ =? 0)%nat; [|split; reflexivity].
  cbn [Server.gameLoops Server.set_gameRooms].
  destruct (JSMap.has roomId (Server.gameLoops s)) eqn:E; split; try reflexivity.
  cbn. now rewrite delete_absent.
Qed.

Lemma cleanup_fold_maps l : forall s,
  Server.gameRooms (fold_left cleanupRoom l s) = delete_deserted l (Server.gameRooms s) /\
  Server.gameLoops (fold_left cleanupRoom l s) = delete_deserted l (Server.gameLoops s).
Proof.
  induction l as [|[k0 room0] l IH]; intros s; [split; reflexivity|].
  cbn [fold_left delete_deserted fst snd].
  destruct (IH (cleanupRoom s (k0, room0))) as [-> ->].
  destruct (cleanupRoom_maps s k0 room0) as [-> ->]. split; reflexivity.
Qed.

Lemma cleanup_fold_nothing l : forall s,
  (forall k room, In (k, room) l -> deserted room = false) ->
  fold_left cleanupRoom l s = s.
Proof.
  induction l as [|[k0 room0] l IH]; intros s H; [reflexivity|].
  cbn [fold_left]. rewrite IH by (intros k room Hin; apply (H k); now right).
  unfold cleanupRoom. unfold deserted in H. now rewrite (H k0 room0) by now left.
Qed.

(** X20.  One run of the sweep, on any server the actions can produce: a
    room is kept, unchanged, exactly when it has a player, and deleted when
    it has none; an interval is kept exactly when it was live and its room
    is not one of the deleted ones; the sessions and the messages are not
    touched; and a second run right after changes nothing. *)
Theorem cleanup_removes_deserted_rooms (acts : list Action) :
  let s := perform acts Server.init in
  (forall k room,
      JSMap.get k (Server.gameRooms (cleanup s)) = Some room <->
      JSMap.get k (Server.gameRooms s) = Some room /\ deserted room = false) /\
  (forall k,
      JSMap.has k (Server.gameLoops (cleanup s)) = true <->
      JSMap.has k (Server.gameLoops s) = true /\
      forall room, JSMap.get k (Server.gameRooms s) = Some room -> deserted room = false) /\
  Server.playerSockets (cleanup s) = Server.playerSockets s /\
  Server.sent (cleanup s) = Server.sent s /\
  cleanup (cleanup s) = cleanup s.
Proof.
  intros s.
  assert (Hreg : registry_ok s) by (apply registry_ok_perform, registry_ok_init).
  destruct Hreg as (Hnd & Hndl & _ & _).
  assert (Hone : forall k room room',
             JSMap.get k (Server.gameRooms s) = Some room ->
             In (k, room') (Server.gameRooms s) -> room' = room).
  { intros k room room' Hget Hin. apply (In_get _ _ _ Hnd) in Hin. congruence. }
  assert (Hrooms : forall k room,
             JSMap.get k (Server.gameRooms (cleanup s)) = Some room <->
             JSMap.get k (Server.gameRooms s) = Some room /\ deserted room = false).
  { intros k room. unfold cleanup.
    destruct (cleanup_fold_maps (Server.gameRooms s) s) as [-> _]. split.
    - intros H. pose proof (delete_deserted_sub _ _ _ _ Hnd H) as Hget.
      split; [exact Hget|]. destruct (deserted room) eqn:E; [|reflexivity].
      rewrite (delete_deserted_removes _ _ k room Hnd (get_In _ _ _ Hget) E) in H.
      discriminate.
    - intros [Hget Hd]. apply delete_deserted_keeps; [exact Hget|].
      intros room' Hin. now rewrite (Hone k room room' Hget Hin). }
  split; [exact Hrooms|]. split; [|split; [|split]].
  - intros k. unfold cleanup.
    destruct (cleanup_fold_maps (Server.gameRooms s) s) as [_ ->]. unfold JSMap.has. split.
    + intros H.
      destruct (JSMap.get k (delete_deserted _ (Server.gameLoops s))) as [v|] eqn:E;
        [|discriminate].
      rewrite (delete_deserted_sub _ _ _ _ Hndl E). split; [reflexivity|].
      intros room Hget. destruct (deserted room) eqn:Ed; [|reflexivity].
      rewrite (delete_deserted_removes _ _ k room Hndl (get_In _ _ _ Hget) Ed) in E.
      discriminate.
    + intros [H Hall].
      destruct (JSMap.get k (Server.gameLoops s)) as [v|] eqn:E; [|discriminate].
      rewrite (delete_deserted_keeps _ _ k v E); [reflexivity|].
      intros room Hin. apply Hall. now apply (In_get _ _ _ Hnd).
  - apply cleanup_fold_frame.
  - apply cleanup_fold_frame.
  - unfold cleanup at 1. apply cleanup_fold_nothing.
    intros k room Hin.
    assert (Hnd' : NoDup (JSMap.keys (Server.gameRooms (cleanup s)))).
    { unfold cleanup. destruct (cleanup_fold_maps (Server.gameRooms s) s) as [-> _].
      now apply delete_deserted_NoDup. }
    apply (In_get _ _ _ Hnd') in Hin. now apply Hrooms in Hin.
Qed.

(** ** Joining over a socket *)

Lemma set_same {V : Type} (k : string) (v : V) (m : JSMap.t V) :
  JSMap.get k m = Some v -> JSMap.set k v m = m.
Proof.
  induction m as [|[k0 v0] m IH]; simpl; [discriminate|].
  destruct (String.eqb_spec k0 k) as [->|Hne].
  - intros H. injection H as ->. reflexivity.
  - intros H. now rewrite IH.
Qed.

(** X21.  [join-room] looks the room up, or creates it when there is none.
    It answers [success: false] exactly when that room already holds its
    [maxPlayers] players, and then changes nothing and sends nothing.
    Otherwise it answers [success: true]: the room is stored with the new
    player object under the socket id, the session of the socket names this
    room and this socket, one [room-update] with the new snapshot is sent to
    the room, and the other rooms, the other sessions and the intervals are
    as before. *)
Theorem join_room_acknowledges (socket_id roomId playerName : string) (now : Z)
    (s : Server.t) :
  let room :=
    match JSMap.get roomId (Server.gameRooms s) with
    | Some room => room
    | None => constructor roomId now
    end in
  let ack := fst (on_join_room socket_id roomId playerName now s) in
  let s' := snd (on_join_room socket_id roomId playerName now s) in
  (ack = false <->
   (GameRoom.maxPlayers room <= JSMap.size (GameRoom.players room))%nat) /\
  (ack = false -> s' = s) /\
  (ack = true ->
   let room' := snd (addPlayer socket_id (PlayerData.mk playerName) room) in
   JSMap.get roomId (Server.gameRooms s') = Some room' /\
   JSMap.get socket_id (GameRoom.players room') =
     Some (newPlayer socket_id (PlayerData.mk playerName) room) /\
   JSMap.get socket_id (Server.playerSockets s') = Some (Session.mk roomId socket_id) /\
   (forall k, k <> roomId ->
              JSMap.get k (Server.gameRooms s') = JSMap.get k (Server.gameRooms s)) /\
   (forall q, q <> socket_id ->
              JSMap.get q (Server.playerSockets s') = JSMap.get q (Server.playerSockets s)) /\
   Server.gameLoops s' = Server.gameLoops s /\
   Server.sent s' =
     (Server.sent s ++ [Message.mk roomId "room-update" (Some (getGameState room'))])%list).
Proof.
  intros room ack s'. unfold ack, s', on_join_room. fold room.
  destruct (Nat.leb_spec (GameRoom.maxPlayers room) (JSMap.size (GameRoom.players room)))
    as [Hfull|Hfree].
  - assert (Hadd : addPlayer socket_id (PlayerData.mk playerName) room = (false, room)).
    { unfold addPlayer. apply Nat.leb_le in Hfull. now rewrite Hfull. }
    rewrite Hadd. cbn [fst snd].
    split; [tauto|]. split; [|discriminate]. intros _.
    assert (Hget : JSMap.get roomId (Server.gameRooms s) = Some room).
    { unfold room in *. destruct (JSMap.get roomId (Server.gameRooms s)); [reflexivity|].
      cbn in Hfull. lia. }
    rewrite (set_same _ _ _ Hget). destruct s; reflexivity.
  - rewrite (addPlayer_accepts _ _ _ Hfree). cbn [fst snd].
    split; [split; [discriminate | lia]|]. split; [discriminate|]. intros _.
    cbn [Server.gameRooms Server.playerSockets Server.gameLoops Server.sent Server.emit
         Server.set_gameRooms Server.set_playerSockets GameRoom.players
         GameRoom.set_players].
    split; [apply get_set_same|]. split; [apply get_set_same|].
    split; [apply get_set_same|].
    split; [intros k Hk; apply get_set_other; intros Heq; apply Hk; now rewrite Heq|].
    split; [intros q Hq; apply get_set_other; intros Heq; apply Hq; now rewrite Heq|].
    split; reflexivity.
Qed.

(** ** Creating a room over HTTP *)

(** X22.  [POST /api/rooms], on any server the actions can produce, answers
    the id made of [room-] and the clock in decimal, and stores under it a
    new room: no player, phase waiting, score 0 to 0.  The room is listed by
    [GET /api/rooms] with [playerCount] 0; the other rooms, the sessions,
    the intervals and the messages are as before; and if nobody joins it,
    the next sweep deletes it. *)
Theorem created_room_is_listed_then_swept (acts : list Action) (now1 now2 : Z) :
  let s := perform acts Server.init in
  let roomId := fst (api_create_room now1 now2 s) in
  let s' := snd (api_create_room now1 now2 s) in
  roomId = "room-" ++ NilZero.string_of_int (Z.to_int now1) /\
  JSMap.get roomId (Server.gameRooms s') = Some (constructor roomId now2) /\
  In (RoomInfo.mk roomId 0 6 waiting (Score.mk 0 0)) (api_rooms s') /\
  (forall k, k <> roomId ->
             JSMap.get k (Server.gameRooms s') = JSMap.get k (Server.gameRooms s)) /\
  Server.playerSockets s' = Server.playerSockets s /\
  Server.gameLoops s' = Server.gameLoops s /\
  Server.sent s' = Server.sent s /\
  JSMap.get roomId (Server.gameRooms (cleanup s')) = None.
Proof.
  intros s roomId s'.
  assert (Hreg : registry_ok s') by
    (apply (registry_ok_act (CreateRoom now1 now2)), registry_ok_perform, registry_ok_init).
  assert (Hget : JSMap.get roomId (Server.gameRooms s') = Some (constructor roomId now2))
    by apply get_set_same.
  split; [reflexivity|]. split; [exact Hget|]. split; [|split; [|split; [|split; [|split]]]];
    try reflexivity.
  - unfold api_rooms, JSMap.values. rewrite map_map. apply in_map_iff.
    exists (roomId, constructor roomId now2). split; [reflexivity | now apply get_In].
  - intros k Hk. apply (get_set_other roomId k). intros Heq. apply Hk. now rewrite Heq.
  - unfold cleanup. destruct (cleanup_fold_maps (Server.gameRooms s') s') as [-> _].
    apply (delete_deserted_removes _ _ roomId (constructor roomId now2));
      [apply Hreg | now apply get_In | reflexivity].
Qed.

(** The id of a room created at a clock reading of this century. *)
Lemma created_room_is_listed_then_swept_witness :
  fst (api_create_room 1730581200000 1730581200000 (perform [] Server.init))
  = "room-1730581200000".
Proof.
  rewrite (proj1 (created_room_is_listed_then_swept [] 1730581200000 1730581200000)).
  reflexivity.
Defined.

(** ** Starting over a socket *)

(** X23.  [start-game] from a socket with a session: when the room has fewer
    than two players nothing changes and nothing is sent.  Otherwise the
    room is stored in the playing phase with its start time, one
    [game-started] with the new snapshot is sent to the room, and the room
    has a live interval afterwards: the one it had, if it had one (a second
    [start-game] does not add an interval), a new one otherwise. *)
Theorem start_game_starts_one_interval (socket_id : string) (now1 now2 : Z)
    (s : Server.t) (session : Session.t) (room : GameRoom.t) :
  JSMap.get socket_id (Server.playerSockets s) = Some session ->
  JSMap.get (Session.roomId session) (Server.gameRooms s) = Some room ->
  let s' := on_start_game socket_id now1 now2 s in
  ((JSMap.size (GameRoom.players room) < 2)%nat -> s' = s) /\
  ((2 <= JSMap.size (GameRoom.players room))%nat ->
   let room' := snd (startGame now1 now2 room) in
   JSMap.get (Session.roomId session) (Server.gameRooms s') = Some room' /\
   GameRoom.gameState room' = playing /\
   GameRoom.gameStartTime room' = Some now1 /\
   GameRoom.players room' = GameRoom.players room /\
   JSMap.has (Session.roomId session) (Server.gameLoops s') = true /\
   (JSMap.has (Session.roomId session) (Server.gameLoops s) = true ->
    Server.gameLoops s' = Server.gameLoops s) /\
   (JSMap.has (Session.roomId session) (Server.gameLoops s) = false ->
    Server.gameLoops s' = JSMap.set (Session.roomId session) tt (Server.gameLoops s)) /\
   Server.playerSockets s' = Server.playerSockets s /\
   Server.sent s' =
     (Server.sent s ++
      [Message.mk (Session.roomId session) "game-started" (Some (getGameState room'))])%list).
Proof.
  intros Hsess Hroom s'. unfold s', on_start_game. rewrite Hsess, Hroom.
  unfold startGame.
  destruct (Nat.leb_spec 2 (JSMap.size (GameRoom.players room))) as [Hge|Hlt].
  - split; [lia|]. intros _. cbn [snd]. unfold startGameLoop.
    cbn [Server.gameRooms Server.playerSockets Server.gameLoops Server.sent Server.emit
         Server.set_gameRooms].
    destruct (JSMap.has (Session.roomId session) (Server.gameLoops s)) eqn:Hloop;
      cbn [Server.gameRooms Server.playerSockets Server.gameLoops Server.sent Server.emit
           Server.set_gameRooms Server.set_gameLoops].
    + split; [apply get_set_same|]. repeat split; try reflexivity; try discriminate.
      exact Hloop.
    + split; [apply get_set_same|]. repeat split; try reflexivity; try discriminate.
      unfold JSMap.has. now rewrite get_set_same.
  - split; [reflexivity | lia].
Qed.

(** ["s2"] starts the game of [held_server] once more: the interval of the
    room stays the only one. *)
Lemma start_game_starts_one_interval_witness :
  Server.gameLoops (on_start_game "s2" 2000 2000 held_server) = [("room", tt)].
Proof.
  destruct (start_game_starts_one_interval "s2" 2000 2000 held_server
              (Session.mk "room" "s2") held_room eq_refl eq_refl) as [_ H].
  destruct (H ltac:(cbn; lia)) as (_ & _ & _ & _ & _ & Hsame & _).
  exact (Hsame eq_refl).
Defined.
